(** * The stored-session loader of oauth2-proxy

    A shallow embedding of [pkg/middleware/stored_session.go] and the
    properties of its natural-language specification.

    The loader talks to collaborators that live outside the file: the
    session store (Load / Save / Clear), the lock of the session
    (ObtainLock / ReleaseLock / PeekLock), the provider callbacks
    (refresh and validate), the logger and the next handler.  The
    functions of the file are written once, as programs over the calls
    they make ([Prog]); a program is then run against an environment,
    alone ([run]) or interleaved with other requests ([Concurrent]).
    Every call is recorded with its answer in a trace, so that "is
    invoked", "is not invoked" and "exactly once" are statements about
    that trace. *)

From Stdlib Require Import ZArith List String Bool Arith Lia.
Import ListNotations.
Local Open Scope string_scope.
Local Open Scope list_scope.
Local Open Scope Z_scope.

(** ** Time *)

(** [time.Time] as nanoseconds since the epoch, [time.Duration] as a
    count of nanoseconds. *)
Definition Time := Z.
Definition Duration := Z.

Definition Millisecond : Duration := 1000000.
Definition Second : Duration := 1000 * Millisecond.

Definition SessionLockExpireTime : Duration := 5 * Second.
Definition SessionLockPeekDelay : Duration := 50 * Millisecond.

(** ** Session records *)

Record SessionState := mkSession {
  CreatedAt : Time;
  ExpiresOn : Time;
  AccessToken : string;
  IDToken : string;
  RefreshToken : string;
  Email : string;
  User : string
}.

(** Modelled from the spec: [SessionState.Age] is declared in
    [pkg/apis/sessions], outside the sources at hand.  The spec gives
    the derived age as now - creation timestamp. *)
Definition Age (s : SessionState) (now : Time) : Duration := now - CreatedAt s.

(** Modelled from the spec: [SessionState.IsExpired] is declared in
    [pkg/apis/sessions].  The spec's validation rule reads "fails if
    now >= session.expiry". *)
Definition IsExpired (s : SessionState) (now : Time) : bool := ExpiresOn s <=? now.

(** Modelled from the spec: [SessionState.CreatedAtNow] is declared in
    [pkg/apis/sessions]; a refresh "resets the creation timestamp to
    now". *)
Definition CreatedAtNow (s : SessionState) (now : Time) : SessionState :=
  {| CreatedAt := now;
     ExpiresOn := ExpiresOn s;
     AccessToken := AccessToken s;
     IDToken := IDToken s;
     RefreshToken := RefreshToken s;
     Email := Email s;
     User := User s |}.

(** The request scope of [pkg/apis/middleware]: the slot the loader
    reads and writes. *)
Record RequestScope := mkScope {
  Session : option SessionState
}.

(** ** Errors *)

(** The two sentinels the loader tests with [errors.Is]:
    [http.ErrNoCookie] and [providers.ErrNotImplemented]. *)
Inductive sentinel := ErrNoCookie | ErrNotImplemented.

Definition sentinel_eqb (a b : sentinel) : bool :=
  match a, b with
  | ErrNoCookie, ErrNoCookie => true
  | ErrNotImplemented, ErrNotImplemented => true
  | _, _ => false
  end.

(** Go error values.  [fmt_Errorf] stands for [fmt.Errorf] with the
    [%v] and [%s] verbs only, as everywhere in the file: the new error
    does not wrap its arguments.  [Wrapping] is an error a collaborator
    built around another one (the [%w] verb), which [errors.Is] looks
    through. *)
Inductive error :=
| Sentinel (s : sentinel)
| errors_New (msg : string)
| fmt_Errorf (format : string) (args : list fmtarg)
| Wrapping (msg : string) (cause : error)
with fmtarg :=
| FErr (e : error)
| FSession (s : SessionState)
| FString (s : string)
| FDuration (d : Duration).

Fixpoint errors_Is (err : error) (target : sentinel) : bool :=
  match err with
  | Sentinel s => sentinel_eqb s target
  | errors_New _ => false
  | fmt_Errorf _ _ => false
  | Wrapping _ cause => errors_Is cause target
  end.

(** ** Calls to the collaborators *)

Inductive LogLevel := LogInfo | LogError | LogAuthError.

(** A call the loader makes, indexed by the type of its answer.  A nil
    pointer or a nil error is [None]. *)
Inductive Op : Type -> Type :=
| StoreLoad : Op (option SessionState * option error)
| StoreSave (session : SessionState) : Op (option error)
| StoreClear : Op (option error)
| ObtainLock (ttl : Duration) : Op (option error)
| ReleaseLock : Op (option error)
| PeekLock : Op (bool * option error)
| ClockNow : Op Time
| Sleep (d : Duration) : Op unit
| Refresher (session : SessionState) : Op (SessionState * bool * option error)
| Validator (session : SessionState) : Op bool
| Log (lvl : LogLevel) (format : string) (args : list fmtarg) : Op unit
| NextServeHTTP (scope : RequestScope) : Op unit.

(** A call together with its answer. *)
Inductive Event :=
| Call {X : Type} (op : Op X) (answer : X).

(** Reading the clock leaves no trace; every other call does. *)
Definition record {X} (op : Op X) (answer : X) : list Event :=
  match op with
  | ClockNow => []
  | _ => [Call op answer]
  end.

(** ** Programs *)

(** A program either returns, or makes a call and goes on with its
    answer.  [Diverge] is a wait loop that did not finish within its
    fuel. *)
Inductive Prog (A : Type) : Type :=
| Ret (a : A)
| Diverge
| Vis {X : Type} (op : Op X) (k : X -> Prog A).
Arguments Ret {A}.
Arguments Diverge {A}.
Arguments Vis {A X}.

Fixpoint bind {A B} (c : Prog A) (f : A -> Prog B) : Prog B :=
  match c with
  | Ret a => f a
  | Diverge => Diverge
  | Vis op k => Vis op (fun x => bind (k x) f)
  end.

Definition call {X} (op : Op X) : Prog X := Vis op Ret.

Declare Scope prog_scope.
Delimit Scope prog_scope with prog.
Notation "x <- c ;; k" := (bind c (fun x => k))
  (at level 61, c at next level, right associativity) : prog_scope.
Notation "' p <- c ;; k" := (bind c (fun x => let 'p := x in k))
  (at level 61, p pattern, c at next level, right associativity) : prog_scope.
Notation "c ;; k" := (bind c (fun _ => k))
  (at level 61, right associativity) : prog_scope.
Local Open Scope prog_scope.

Definition logger_Printf (format : string) (args : list fmtarg) : Prog unit :=
  call (Log LogInfo format args).
Definition logger_Errorf (format : string) (args : list fmtarg) : Prog unit :=
  call (Log LogError format args).
Definition logger_PrintAuthf (format : string) (args : list fmtarg) : Prog unit :=
  call (Log LogAuthError format args).

(** ** The loader *)

(** What a request to the handler ends in: the handler returns, having
    left [scope] in the request, or it panics on a request that carries
    no scope. *)
Inductive Outcome :=
| Panicked
| Served (scope : RequestScope).

Section Loader.
(** [s.refreshPeriod]; the other fields of the loader are reached
    through the calls. *)
Variable refreshPeriod : Duration.

(** [validateSession]: expiry first, then the provider's validator. *)
Definition validateSession (session : SessionState) : Prog (option error) :=
  now <- call ClockNow ;;
  if IsExpired session now then
    Ret (Some (errors_New "session is expired"))
  else
    ok <- call (Validator session) ;;
    if negb ok then Ret (Some (errors_New "session is invalid"))
    else Ret None.

(** The [for] loop of [waitForPossibleSessionLock]: peek; while the
    answer is "locked", set [wasLocked], sleep and peek again.  Each
    unit of fuel pays for one peek. *)
Fixpoint peekLoop (fuel : nat) (wasLocked : bool) : Prog (bool * option error) :=
  match fuel with
  | O => Diverge
  | S fuel' =>
      '(isLocked, err) <- call PeekLock ;;
      if isLocked then
        call (Sleep SessionLockPeekDelay) ;;
        peekLoop fuel' true
      else Ret (wasLocked, err)
  end.

Definition waitForPossibleSessionLock (fuel : nat) : Prog (bool * option error) :=
  '(wasLocked, err) <- peekLoop fuel false ;;
  match err with
  | Some e => Ret (false, Some e)
  | None => Ret (wasLocked, None)
  end.

(** [updateSessionFromStore]: the session is passed by pointer and
    overwritten with the stored one, so the function returns the
    session the pointer designates afterwards.  The pointer is never
    nil at the only call site. *)
Definition updateSessionFromStore (session : SessionState)
  : Prog (SessionState * option error) :=
  '(sessionStored, err) <- call StoreLoad ;;
  match err with
  | Some e =>
      Ret (session,
           Some (fmt_Errorf "unable to load updated session from store: %v" [FErr e]))
  | None =>
      match sessionStored with
      | None =>
          Ret (session,
               Some (fmt_Errorf "no session available to udpate from store" []))
      | Some stored => Ret (stored, None)
      end
  end.

(** The body of [refreshSession] once the lock is obtained, up to its
    [return]. *)
Definition refreshLocked (session : SessionState)
  : Prog (SessionState * option error) :=
  '(session, refreshed, err) <- call (Refresher session) ;;
  let notImplemented :=
    match err with
    | Some e => errors_Is e ErrNotImplemented
    | None => false
    end in
  match err, notImplemented with
  | Some e, false =>
      Ret (session, Some (fmt_Errorf "error refreshing tokens: %v" [FErr e]))
  | _, _ =>
      let refreshed := if notImplemented then true else refreshed in
      if negb refreshed then Ret (session, None)
      else
        now <- call ClockNow ;;
        let session := CreatedAtNow session now in
        err <- call (StoreSave session) ;;
        match err with
        | Some e =>
            logger_PrintAuthf "error saving session: %v"
                              [FString (Email session); FErr e] ;;
            Ret (session, Some (fmt_Errorf "error saving session: %v" [FErr e]))
        | None => Ret (session, None)
        end
  end.

(** The deferred function of [refreshSession].  It assigns the local
    [err] after the result of the function was set, so the result is
    unaffected. *)
Definition releaseDeferred : Prog unit :=
  err <- call ReleaseLock ;;
  match err with
  | Some e => logger_Errorf "unable to release lock: %v" [FErr e]
  | None => Ret tt
  end.

Definition refreshSession (session : SessionState)
  : Prog (SessionState * option error) :=
  err <- call (ObtainLock SessionLockExpireTime) ;;
  match err with
  | Some e =>
      logger_Errorf "unable to obtain lock (skipping refresh): %v" [FErr e] ;;
      Ret (session, None)
  | None =>
      r <- refreshLocked session ;;
      releaseDeferred ;;
      Ret r
  end.

Definition refreshSessionIfNeeded (fuel : nat) (session : SessionState)
  : Prog (SessionState * option error) :=
  now <- call ClockNow ;;
  if (refreshPeriod <=? 0) || (Age session now <? refreshPeriod) then
    Ret (session, None)
  else
    '(wasLocked, err) <- waitForPossibleSessionLock fuel ;;
    match err with
    | Some e => Ret (session, Some e)
    | None =>
        if wasLocked then
          logger_Printf "update session from store" [] ;;
          updateSessionFromStore session
        else
          now <- call ClockNow ;;
          logger_Printf "Refreshing session - User: %s; SessionAge: %s"
                        [FString (User session); FDuration (Age session now)] ;;
          '(session, err) <- refreshSession session ;;
          match err with
          | Some e =>
              logger_Errorf "Unable to refresh session: %v" [FErr e] ;;
              Ret (session, Some e)
          | None => Ret (session, None)
          end
    end.

Definition getValidatedSession (fuel : nat)
  : Prog (option SessionState * option error) :=
  '(session, err) <- call StoreLoad ;;
  match err, session with
  | Some e, _ => Ret (None, Some e)
  | None, None => Ret (None, None)
  | None, Some session =>
      '(session, err) <- refreshSessionIfNeeded fuel session ;;
      match err with
      | Some e =>
          Ret (None,
               Some (fmt_Errorf
                       "error refreshing access token for session (%s): %v"
                       [FSession session; FErr e]))
      | None =>
          err <- validateSession session ;;
          match err with
          | Some e => Ret (None, Some e)
          | None => Ret (Some session, None)
          end
      end
  end.

(** The part of the handler that runs on an error of
    [getValidatedSession]. *)
Definition clearOnError (err : option error) : Prog unit :=
  match err with
  | Some e =>
      if negb (errors_Is e ErrNoCookie) then
        logger_Errorf "Error loading cookied session: %v, removing session"
                      [FErr e] ;;
        err <- call StoreClear ;;
        match err with
        | Some e' => logger_Errorf "Error removing session: %v" [FErr e']
        | None => Ret tt
        end
      else Ret tt
  | None => Ret tt
  end.

(** The handler [loadSession] builds around [next]; [scope] is what
    [GetRequestScope] finds in the request. *)
Definition loadSession (fuel : nat) (scope : option RequestScope) : Prog Outcome :=
  match scope with
  | None => Ret Panicked
  | Some scope =>
      match Session scope with
      | Some _ =>
          call (NextServeHTTP scope) ;;
          Ret (Served scope)
      | None =>
          '(session, err) <- getValidatedSession fuel ;;
          clearOnError err ;;
          let scope := {| Session := session |} in
          call (NextServeHTTP scope) ;;
          Ret (Served scope)
      end
  end.

End Loader.

(** ** Running a program against its collaborators *)

(** [sessionsapi.SessionStore], the part the loader uses. *)
Record SessionStore (E : Type) := {
  Save : SessionState -> E -> option error * E;
  Load : E -> (option SessionState * option error) * E;
  Clear : E -> option error * E
}.
Arguments Save {E}.
Arguments Load {E}.
Arguments Clear {E}.

(** [sessionsapi.Lock], reached in the source through the session
    ([session.ObtainLock] and the like): the lock the store attached to
    the session of the request. *)
Record Lock (E : Type) := {
  Obtain : Duration -> E -> option error * E;
  Peek : E -> (bool * option error) * E;
  Release : E -> option error * E
}.
Arguments Obtain {E}.
Arguments Peek {E}.
Arguments Release {E}.

(** The fields of [storedSessionLoader] that are collaborators, and
    what else the handler runs in: the session's lock and clock, the
    sleeping of the goroutine and the next handler of the chain.  The
    logger only writes: its lines are kept in the trace. *)
Record Collaborators (E : Type) := {
  store : SessionStore E;
  sessionRefresher : SessionState -> E -> (SessionState * bool * option error) * E;
  sessionValidator : SessionState -> E -> bool * E;
  lock : Lock E;
  Now : E -> Time;
  time_Sleep : Duration -> E -> E;
  next : RequestScope -> E -> E
}.
Arguments store {E}.
Arguments sessionRefresher {E}.
Arguments sessionValidator {E}.
Arguments lock {E}.
Arguments Now {E}.
Arguments time_Sleep {E}.
Arguments next {E}.

Record St (E : Type) := mkSt {
  env : E;
  trace : list Event
}.
Arguments mkSt {E}.
Arguments env {E}.
Arguments trace {E}.

(** The trace and the result of a finished run. *)
Definition finalTrace {E A} (r : option (A * St E)) : list Event :=
  match r with
  | Some (_, st) => trace st
  | None => []
  end.

Definition result {E A} (r : option (A * St E)) : option A :=
  match r with
  | Some (a, _) => Some a
  | None => None
  end.

Section Run.
Context {E : Type}.
Variable c : Collaborators E.

Definition handle {X} (op : Op X) : E -> X * E :=
  match op in Op X return E -> X * E with
  | StoreLoad => Load (store c)
  | StoreSave session => Save (store c) session
  | StoreClear => Clear (store c)
  | ObtainLock ttl => Obtain (lock c) ttl
  | ReleaseLock => Release (lock c)
  | PeekLock => Peek (lock c)
  | ClockNow => fun e => (Now c e, e)
  | Sleep d => fun e => (tt, time_Sleep c d e)
  | Refresher session => sessionRefresher c session
  | Validator session => sessionValidator c session
  | Log _ _ _ => fun e => (tt, e)
  | NextServeHTTP scope => fun e => (tt, next c scope e)
  end.

(** One call: the collaborator answers, the environment moves on and
    the trace grows. *)
Definition perform {X} (op : Op X) (st : St E) : X * St E :=
  let '(x, e') := handle op (env st) in
  (x, mkSt e' (trace st ++ record op x)).

(** [None] is a run whose wait loop did not finish within its fuel. *)
Fixpoint run {A} (p : Prog A) (st : St E) : option (A * St E) :=
  match p with
  | Ret a => Some (a, st)
  | Diverge => None
  | Vis op k => let '(x, st') := perform op st in run (k x) st'
  end.

End Run.

(** ** Observing a run *)

Section Observe.
Context {E : Type}.
Variable c : Collaborators E.

(** The lock is seen held [n] times in a row by a request that peeks
    and sleeps as the wait loop does; the state after the last
    sleep. *)
Fixpoint polls (n : nat) (st : St E) : option (St E) :=
  match n with
  | O => Some st
  | S n' =>
      let '(x, st1) := perform c PeekLock st in
      if fst x then polls n' (snd (perform c (Sleep SessionLockPeekDelay) st1))
      else None
  end.

(** The lock is seen free at one of the next [n] peeks of such a
    request. *)
Fixpoint releasedWithin (n : nat) (e : E) : bool :=
  match n with
  | O => false
  | S n' =>
      let '(x, e1) := Peek (lock c) e in
      if fst x then releasedWithin n' (time_Sleep c SessionLockPeekDelay e1)
      else true
  end.

(** A run that returns. *)
Definition terminates {A} (p : Prog A) (st : St E) : Prop :=
  exists a st', run c p st = Some (a, st').

Definition total {A} (p : Prog A) : Prop := forall st, terminates p st.

(** What [getValidatedSession] returns once the refresh step left it
    with [session] and no error: the verdict of the validation. *)
Definition validated (session : SessionState) (st : St E)
  : option ((option SessionState * option error) * St E) :=
  match run c (validateSession session) st with
  | Some (None, st') => Some ((Some session, None), st')
  | Some (Some e, st') => Some ((None, Some e), st')
  | None => None
  end.

End Observe.

(** Counting the calls of a kind in a trace. *)
Definition calls (kind : forall X, Op X -> bool) (tr : list Event) : nat :=
  List.length (filter (fun ev => match ev with Call op _ => kind _ op end) tr).

Definition isNext {X} (op : Op X) : bool :=
  match op with NextServeHTTP _ => true | _ => false end.
Definition isSave {X} (op : Op X) : bool :=
  match op with StoreSave _ => true | _ => false end.
Definition isLoad {X} (op : Op X) : bool :=
  match op with StoreLoad => true | _ => false end.
Definition isClear {X} (op : Op X) : bool :=
  match op with StoreClear => true | _ => false end.
Definition isRefresher {X} (op : Op X) : bool :=
  match op with Refresher _ => true | _ => false end.
Definition isValidator {X} (op : Op X) : bool :=
  match op with Validator _ => true | _ => false end.
Definition isSleep {X} (op : Op X) : bool :=
  match op with Sleep _ => true | _ => false end.
Definition isPeek {X} (op : Op X) : bool :=
  match op with PeekLock => true | _ => false end.

(** ** Call disciplines *)

(** A discipline tells, from a state of its own, which calls a program
    may make ([permitted]) and where a call and its answer lead
    ([advance]). *)
Section Discipline.
Context {S : Type}.
Variable permitted : forall X, Op X -> S -> bool.
Variable advance : forall X, Op X -> X -> S -> S.

(** [wp s p Q]: started in [s], the program [p] makes permitted calls
    only, whatever the collaborators answer, and returns in a state
    that satisfies [Q]. *)
Fixpoint wp {A} (s : S) (p : Prog A) (Q : A -> S -> Prop) : Prop :=
  match p with
  | Ret a => Q a s
  | Diverge => True
  | Vis op k =>
      permitted _ op s = true /\ forall x, wp (advance _ op x s) (k x) Q
  end.

End Discipline.

(** The discipline of a program that never makes a call of some
    kind. *)
Definition never (kind : forall X, Op X -> bool) {A} (p : Prog A) : Prop :=
  wp (fun X op (_ : unit) => negb (kind X op)) (fun _ _ _ u => u) tt p
     (fun _ _ => True).

(** The discipline of the refresh lock.  Where a request stands: *)
Inductive phase :=
| Idle        (* has not claimed the lock *)
| Holding     (* obtained the lock, the refresher not yet called *)
| Refreshed   (* obtained the lock and called the refresher *)
| Done.       (* released the lock, or was denied it *)

Definition holding (ph : phase) : bool :=
  match ph with
  | Holding | Refreshed => true
  | Idle | Done => false
  end.

Definition lockPermitted (X : Type) (op : Op X) (ph : phase) : bool :=
  match op with
  | ObtainLock _ => match ph with Idle => true | _ => false end
  | Refresher _ => match ph with Holding => true | _ => false end
  | ReleaseLock => holding ph
  | _ => true
  end.

Definition lockAdvance (X : Type) (op : Op X) : X -> phase -> phase :=
  match op in Op X return X -> phase -> phase with
  | ObtainLock _ => fun res _ => match res with None => Holding | Some _ => Done end
  | Refresher _ => fun _ _ => Refreshed
  | ReleaseLock => fun _ _ => Done
  | _ => fun _ ph => ph
  end.

(** A program follows the lock discipline when it claims the lock at
    most once, calls the refresher at most once and only under the
    lock, and returns without the lock. *)
Definition conforms {A} (ph : phase) (p : Prog A) : Prop :=
  wp lockPermitted lockAdvance ph p (fun _ ph' => holding ph' = false).

(** A program that leaves the phase as it is. *)
Definition keeps {A} (p : Prog A) : Prop :=
  forall ph, wp lockPermitted lockAdvance ph p (fun _ ph' => ph' = ph).

(** The calls that are none of the lock's. *)
Definition plain {X} (op : Op X) : bool :=
  match op with
  | ObtainLock _ | ReleaseLock | Refresher _ => false
  | _ => true
  end.

(** ** A scripted environment *)

(** A test double: the store and the lock answer from scripts, the
    clock moves when the goroutine sleeps. *)
Module Mock.

Record env := mkEnv {
  clock : Time;
  (** answers of the successive [Load]s; [(None, None)] afterwards *)
  loads : list (option SessionState * option error);
  (** answers of the successive [PeekLock]s; "free" afterwards *)
  peeks : list (bool * option error);
  obtain_err : option error;
  release_err : option error;
  save_err : option error;
  clear_err : option error
}.

Definition scriptedLoad (e : env) : (option SessionState * option error) * env :=
  match loads e with
  | [] => ((None, None), e)
  | r :: rest =>
      (r, mkEnv (clock e) rest (peeks e) (obtain_err e) (release_err e)
                (save_err e) (clear_err e))
  end.

Definition scriptedPeek (e : env) : (bool * option error) * env :=
  match peeks e with
  | [] => ((false, None), e)
  | r :: rest =>
      (r, mkEnv (clock e) (loads e) rest (obtain_err e) (release_err e)
                (save_err e) (clear_err e))
  end.

Definition scriptedSleep (d : Duration) (e : env) : env :=
  mkEnv (clock e + d) (loads e) (peeks e) (obtain_err e) (release_err e)
        (save_err e) (clear_err e).

Definition collaborators
  (refresh : SessionState -> SessionState * bool * option error)
  (valid : SessionState -> bool) : Collaborators env :=
  {| store := {| Save := fun _ e => (save_err e, e);
                 Load := scriptedLoad;
                 Clear := fun e => (clear_err e, e) |};
     sessionRefresher := fun session e => (refresh session, e);
     sessionValidator := fun session e => (valid session, e);
     lock := {| Obtain := fun _ e => (obtain_err e, e);
                Peek := scriptedPeek;
                Release := fun e => (release_err e, e) |};
     Now := clock;
     time_Sleep := scriptedSleep;
     next := fun _ e => e |}.

(** A session created at 0 that expires at 10 hours. *)
Definition Hour : Duration := 3600 * Second.

Definition alice : SessionState :=
  {| CreatedAt := 0; ExpiresOn := 10 * Hour;
     AccessToken := "at-1"; IDToken := "id-1"; RefreshToken := "rt-1";
     Email := "alice@example.com"; User := "alice" |}.

(** The same session as another request refreshed and saved it. *)
Definition alice' : SessionState :=
  {| CreatedAt := 2 * Hour; ExpiresOn := 12 * Hour;
     AccessToken := "at-2"; IDToken := "id-2"; RefreshToken := "rt-2";
     Email := "alice@example.com"; User := "alice" |}.

(** Two hours later, the store holds [alice], nobody holds the lock
    and no collaborator fails. *)
Definition calm : env :=
  {| clock := 2 * Hour; loads := [(Some alice, None)]; peeks := [];
     obtain_err := None; release_err := None;
     save_err := None; clear_err := None |}.

Definition start (e : env) : St env := mkSt e [].

Definition noScope : RequestScope := {| Session := None |}.

(** Providers: one whose refresh fails, one that has no refresh, one
    that rotates the tokens; a validator that accepts every
    session. *)
Definition refreshFails (session : SessionState)
  : SessionState * bool * option error :=
  (session, false, Some (errors_New "token endpoint unreachable")).

Definition refreshNotImplemented (session : SessionState)
  : SessionState * bool * option error :=
  (session, false, Some (Sentinel ErrNotImplemented)).

Definition refreshRotates (session : SessionState)
  : SessionState * bool * option error :=
  (alice', true, None).

Definition accept (session : SessionState) : bool := true.

(** The store cannot save. *)
Definition saveFails : env :=
  {| clock := 2 * Hour; loads := [(Some alice, None)]; peeks := [];
     obtain_err := None; release_err := None;
     save_err := Some (errors_New "store unavailable"); clear_err := None |}.

(** The lock is free when peeked at and taken when claimed; the store
    holds [alice'] by then. *)
Definition denied : env :=
  {| clock := 2 * Hour;
     loads := [(Some alice, None); (Some alice', None)]; peeks := [];
     obtain_err := Some (errors_New "lock already held");
     release_err := None; save_err := None; clear_err := None |}.

(** The store fails to tell whether the lock is held. *)
Definition peekFails : env :=
  {| clock := 2 * Hour; loads := [(Some alice, None)];
     peeks := [(false, Some (errors_New "connection refused"))];
     obtain_err := None; release_err := None;
     save_err := None; clear_err := None |}.

(** The lock cannot be released. *)
Definition releaseFails : env :=
  {| clock := 2 * Hour; loads := [(Some alice, None)]; peeks := [];
     obtain_err := None;
     release_err := Some (errors_New "lock already expired");
     save_err := None; clear_err := None |}.

(** Another request holds the lock for two peeks and saves [alice']
    meanwhile. *)
Definition contended : env :=
  {| clock := 2 * Hour;
     loads := [(Some alice, None); (Some alice', None)];
     peeks := [(true, None); (true, None)];
     obtain_err := None; release_err := None;
     save_err := None; clear_err := None |}.

(** Another request holds the lock for one peek and the session is
    gone from the store when it is released; clearing fails too. *)
Definition vanished : env :=
  {| clock := 2 * Hour; loads := [(Some alice, None)];
     peeks := [(true, None)];
     obtain_err := None; release_err := None;
     save_err := None; clear_err := Some (errors_New "store unavailable") |}.

(** The store holds no session. *)
Definition empty : env :=
  {| clock := 2 * Hour; loads := []; peeks := [];
     obtain_err := None; release_err := None;
     save_err := None; clear_err := None |}.

End Mock.

(** ** Requests running concurrently *)

Module Concurrent.

(** Modelled from the spec: the store and its lock are declared in
    [pkg/apis/sessions] and implemented in [pkg/sessions], outside
    the sources at hand.  The spec asks for one record per session
    key, with a lock made of a holder token and an expiry timestamp:
    [ObtainLock] claims it for a bounded lifetime unless it is held,
    [PeekLock] tells whether it is held, an expired lock counting as
    released, and [ReleaseLock] releases the lock of its holder. *)
Record shared := mkShared {
  clock : Time;
  stored : option SessionState;
  lockRecord : option (nat * Time)
}.

Definition held (e : shared) : bool :=
  match lockRecord e with
  | Some (_, expiry) => clock e <? expiry
  | None => false
  end.

Definition load (e : shared) : (option SessionState * option error) * shared :=
  match stored e with
  | Some session => ((Some session, None), e)
  | None => ((None, Some (Sentinel ErrNoCookie)), e)
  end.

Definition save (session : SessionState) (e : shared) : option error * shared :=
  (None, mkShared (clock e) (Some session) (lockRecord e)).

Definition clear (e : shared) : option error * shared :=
  (None, mkShared (clock e) None (lockRecord e)).

Definition obtain (me : nat) (ttl : Duration) (e : shared) : option error * shared :=
  if held e then (Some (errors_New "lock already held"), e)
  else (None, mkShared (clock e) (stored e) (Some (me, clock e + ttl))).

Definition peek (e : shared) : (bool * option error) * shared :=
  ((held e, None), e).

Definition release (me : nat) (e : shared) : option error * shared :=
  match lockRecord e with
  | Some (owner, _) =>
      if Nat.eqb owner me then (None, mkShared (clock e) (stored e) None)
      else (Some (errors_New "lock held by another request"), e)
  | None => (Some (errors_New "lock not held"), e)
  end.

(** Time passes when a request sleeps. *)
Definition sleep (d : Duration) (e : shared) : shared :=
  mkShared (clock e + d) (stored e) (lockRecord e).

(** The requests in flight, each with what it has left to run and
    its phase, over the one store; the log tells which request made
    which call. *)
Record pool := mkPool {
  requests : nat -> Prog Outcome;
  phases : nat -> phase;
  world : shared;
  log : list (nat * Event)
}.

Definition upd {A} (i : nat) (a : A) (f : nat -> A) : nat -> A :=
  fun j => if Nat.eqb j i then a else f j.

(** No lock is seen past its expiry: its holder released it within
    its lifetime. *)
Definition lockFresh (e : shared) : bool :=
  match lockRecord e with
  | Some (_, expiry) => clock e <? expiry
  | None => true
  end.

(** How often request [i] called the refresher, and how often all
    requests did. *)
Definition refreshesOf (i : nat) (l : list (nat * Event)) : nat :=
  calls (@isRefresher)
        (map snd (filter (fun entry => Nat.eqb (fst entry) i) l)).

Definition refreshes (l : list (nat * Event)) : nat :=
  calls (@isRefresher) (map snd l).

(** What holds of the requests at every instant: each follows the
    lock discipline from the phase it is in; the request the store
    records as holder of the lock is the one whose phase is a holding
    one; and a request called the refresher at most once, and not at
    all before it held the lock. *)
Definition invariant (p : pool) : Prop :=
  (forall i, conforms (phases p i) (requests p i)) /\
  (forall i, holding (phases p i) = true <->
             exists expiry, lockRecord (world p) = Some (i, expiry)) /\
  (forall i, (refreshesOf i (log p) <= 1)%nat /\
             (holding (phases p i) = false -> phases p i <> Done ->
              refreshesOf i (log p) = 0%nat) /\
             (phases p i = Holding -> refreshesOf i (log p) = 0%nat)).

Section Requests.
(** The provider's callbacks. *)
Variable refresh : SessionState -> SessionState * bool * option error.
Variable valid : SessionState -> bool.

(** The collaborators as request [me] reaches them. *)
Definition collaboratorsOf (me : nat) : Collaborators shared :=
  {| store := {| Save := save; Load := load; Clear := clear |};
     sessionRefresher := fun session e => (refresh session, e);
     sessionValidator := fun session e => (valid session, e);
     lock := {| Obtain := obtain me; Peek := peek; Release := release me |};
     Now := clock;
     time_Sleep := sleep;
     next := fun _ e => e |}.

(** Request [i] makes its next call; a request that returned stays
    where it is. *)
Definition step (i : nat) (p : pool) : pool :=
  match requests p i with
  | Vis op k =>
      let '(x, e') := handle (collaboratorsOf i) op (world p) in
      {| requests := upd i (k x) (requests p);
         phases := upd i (lockAdvance _ op x (phases p i)) (phases p);
         world := e';
         log := log p ++ map (pair i) (record op x) |}
  | _ => p
  end.

(** A schedule names the request that moves at each instant. *)
Fixpoint exec (schedule : list nat) (p : pool) : pool :=
  match schedule with
  | [] => p
  | i :: rest => exec rest (step i p)
  end.

Fixpoint withinTTL (schedule : list nat) (p : pool) : bool :=
  lockFresh (world p) &&
  match schedule with
  | [] => true
  | i :: rest => withinTTL rest (step i p)
  end.

End Requests.

(** The requests at their arrival: each runs the handler built by the
    one loader, on its own request scope. *)
Definition arrivals (refreshPeriod : Duration) (fuel : nat -> nat)
           (scope : nat -> option RequestScope) (e : shared) : pool :=
  {| requests := fun i => loadSession refreshPeriod (fuel i) (scope i);
     phases := fun _ => Idle;
     world := e;
     log := [] |}.

(** Two requests for the session [alice], two hours old, with a
    refresh period of one hour. *)
Definition twoRequests : pool :=
  arrivals Mock.Hour (fun _ => 4%nat) (fun _ => Some Mock.noScope)
           (mkShared (2 * Mock.Hour) (Some Mock.alice) None).

(** Both requests load the session and find it due; then request 0
    runs to its end, and only then request 1 goes on. *)
Definition oneAfterTheOther : list nat :=
  [0; 1; 0; 1]%nat ++ repeat 0%nat 11 ++ repeat 1%nat 11.

End Concurrent.

(** ** The constructor *)

(** [StoredSessionLoaderOptions]; the store field cannot bear the name
    of its type. *)
Record StoredSessionLoaderOptions (E : Type) := {
  SessionStore' : SessionStore E;
  RefreshPeriod : Duration;
  RefreshSession : SessionState -> E -> (SessionState * bool * option error) * E;
  ValidateSession : SessionState -> E -> bool * E
}.
Arguments SessionStore' {E}.
Arguments RefreshPeriod {E}.
Arguments RefreshSession {E}.
Arguments ValidateSession {E}.

(** What a request brings along that is no field of the loader: the
    lock and the clock of its session and the sleeping of its
    goroutine. *)
Record Ambient (E : Type) := {
  sessionLock : Lock E;
  sessionClock : E -> Time;
  goSleep : Duration -> E -> E
}.
Arguments sessionLock {E}.
Arguments sessionClock {E}.
Arguments goSleep {E}.

(** [NewStoredSessionLoader]: the loader takes its four fields from the
    options, and the constructor it returns wraps [next] into
    [ss.loadSession]. *)
Definition NewStoredSessionLoader {E} (opts : StoredSessionLoaderOptions E)
           (amb : Ambient E) (nextHandler : RequestScope -> E -> E)
           (fuel : nat) (scope : option RequestScope)
  : St E -> option (Outcome * St E) :=
  let ss :=
    {| store := SessionStore' opts;
       sessionRefresher := RefreshSession opts;
       sessionValidator := ValidateSession opts;
       lock := sessionLock amb;
       Now := sessionClock amb;
       time_Sleep := goSleep amb;
       next := nextHandler |} in
  run ss (loadSession (RefreshPeriod opts) fuel scope).

(** ** More to observe in a trace *)

(** The calls that belong to a refresh: those to the lock, the sleeps
    of the wait, the refresher and Save. *)
Definition refreshing {X} (op : Op X) : bool :=
  match op with
  | ObtainLock _ | ReleaseLock | PeekLock | Sleep _ | Refresher _
  | StoreSave _ => true
  | _ => false
  end.

Definition isObtain {X} (op : Op X) : bool :=
  match op with ObtainLock _ => true | _ => false end.
Definition isRelease {X} (op : Op X) : bool :=
  match op with ReleaseLock => true | _ => false end.

(** Counting the events of a trace that pass a test on the call and
    its answer. *)
Definition count (test : Event -> bool) (tr : list Event) : nat :=
  List.length (filter test tr).

(** A claim of the lock that was granted. *)
Definition granted (ev : Event) : bool :=
  match ev with
  | Call op x =>
      match op in Op X return X -> bool with
      | ObtainLock _ => fun res => match res with None => true | Some _ => false end
      | _ => fun _ => false
      end x
  end.




(** The protocol of the critical section: the lock discipline, and Save
    only once the refresher was called under the lock. *)
Definition critPermitted (X : Type) (op : Op X) (ph : phase) : bool :=
  match op with
  | StoreSave _ => match ph with Refreshed => true | _ => false end
  | _ => lockPermitted X op ph
  end.


(** The discipline of a budget: at most [n] more calls of a kind. *)
Definition budgetPermitted (kind : forall X, Op X -> bool)
           (X : Type) (op : Op X) (n : nat) : bool :=
  if kind X op then (0 <? n)%nat else true.

Definition budgetAdvance (kind : forall X, Op X -> bool)
           (X : Type) (op : Op X) (_ : X) (n : nat) : nat :=
  if kind X op then Nat.pred n else n.




(** ** A lock that is never released *)

Module Stuck.

(** The scripted environment, but for the lock: every peek finds it
    held. *)
Definition collaborators : Collaborators Mock.env :=
  {| store := store (Mock.collaborators Mock.refreshRotates Mock.accept);
     sessionRefresher := fun session e => (Mock.refreshRotates session, e);
     sessionValidator := fun session e => (Mock.accept session, e);
     lock := {| Obtain := fun _ e => (Mock.obtain_err e, e);
                Peek := fun e => ((true, None), e);
                Release := fun e => (Mock.release_err e, e) |};
     Now := Mock.clock;
     time_Sleep := Mock.scriptedSleep;
     next := fun _ e => e |}.

End Stuck.

(** ** More scripted requests *)

Module Scenes.
Import Mock.

(** Half an hour after the session was created. *)
Definition early : env :=
  {| clock := Hour / 2; loads := [(Some alice, None)]; peeks := [];
     obtain_err := None; release_err := None;
     save_err := None; clear_err := None |}.

(** Another request holds the lock for one peek and the store fails on
    the reload, with "no cookie" of all errors. *)
Definition reloadFails : env :=
  {| clock := 2 * Hour;
     loads := [(Some alice, None); (None, Some (Sentinel ErrNoCookie))];
     peeks := [(true, None)];
     obtain_err := None; release_err := None;
     save_err := None; clear_err := None |}.

(** The store returns a session together with a wrapped "no cookie". *)
Definition noCookie : env :=
  {| clock := 2 * Hour;
     loads := [(Some alice,
                Some (Wrapping "loading session" (Sentinel ErrNoCookie)))];
     peeks := [];
     obtain_err := None; release_err := None;
     save_err := None; clear_err := None |}.

(** Another request holds the lock for one peek; the store then fails
    to tell whether it is still held. *)
Definition latePeekFails : env :=
  {| clock := 2 * Hour;
     loads := [(Some alice, None); (Some alice', None)];
     peeks := [(true, None); (false, Some (errors_New "connection refused"))];
     obtain_err := None; release_err := None;
     save_err := None; clear_err := None |}.

(** The store cannot load the session. *)
Definition loadFails : env :=
  {| clock := 2 * Hour;
     loads := [(None, Some (errors_New "store unavailable"))]; peeks := [];
     obtain_err := None; release_err := None;
     save_err := None; clear_err := None |}.

(** A session that lapsed a quarter of an hour after it was created,
    and the store that holds it half an hour after. *)
Definition lapsed : SessionState :=
  {| CreatedAt := 0; ExpiresOn := Hour / 4;
     AccessToken := "at-0"; IDToken := "id-0"; RefreshToken := "rt-0";
     Email := "alice@example.com"; User := "alice" |}.

Definition earlyLapsed : env :=
  {| clock := Hour / 2; loads := [(Some lapsed, None)]; peeks := [];
     obtain_err := None; release_err := None;
     save_err := None; clear_err := None |}.

(** A provider that has nothing to refresh. *)
Definition refreshDeclines (session : SessionState)
  : SessionState * bool * option error :=
  (session, false, None).

(** Options that disable the refresh, and what a request brings
    along. *)
Definition disabled : StoredSessionLoaderOptions env :=
  {| SessionStore' := store (collaborators refreshRotates accept);
     RefreshPeriod := 0;
     RefreshSession := fun session e => (refreshRotates session, e);
     ValidateSession := fun session e => (accept session, e) |}.

Definition ambient : Ambient env :=
  {| sessionLock := lock (collaborators refreshRotates accept);
     sessionClock := clock;
     goSleep := scriptedSleep |}.

(** Where two requests to a provider that rotates the tokens end: one
    that finds the lock free, one that finds it held twice. *)
Definition calmEnd : St env :=
  Eval vm_compute in
    match run (collaborators refreshRotates accept)
              (loadSession Hour 1 (Some noScope)) (start calm) with
    | Some (_, st) => st
    | None => start calm
    end.

Definition contendedEnd : St env :=
  Eval vm_compute in
    match run (collaborators refreshRotates accept)
              (loadSession Hour 3 (Some noScope)) (start contended) with
    | Some (_, st) => st
    | None => start contended
    end.

End Scenes.

(** * Properties *)

(** ** Running sequences of calls *)

Section RunFacts.
Context {E : Type}.
Variable c : Collaborators E.

Lemma run_bind {A B} (p : Prog A) (f : A -> Prog B) (st : St E) :
  run c (bind p f) st =
  match run c p st with
  | Some (a, st') => run c (f a) st'
  | None => None
  end.
Proof.
  revert st. induction p as [a | | X op k IH]; intros st; simpl; trivial.
  destruct (perform c op st) as [x st']. apply IH.
Qed.

Lemma run_call {X} (op : Op X) (st : St E) :
  run c (call op) st = Some (perform c op st).
Proof.
  unfold call. simpl. destruct (perform c op st); reflexivity.
Qed.

(** A call that is not of the kind leaves the count of that kind as
    it is. *)
Lemma calls_app kind (tr1 tr2 : list Event) :
  calls kind (tr1 ++ tr2) = (calls kind tr1 + calls kind tr2)%nat.
Proof. unfold calls. rewrite filter_app, length_app. reflexivity. Qed.

Lemma calls_record_other kind {X} (op : Op X) (x : X) :
  kind X op = false -> calls kind (record op x) = 0%nat.
Proof.
  intros H. destruct op; unfold calls; simpl; trivial; rewrite H; reflexivity.
Qed.

Lemma never_bind kind {A B} (p : Prog A) (f : A -> Prog B) :
  never kind p -> (forall a, never kind (f a)) -> never kind (bind p f).
Proof.
  unfold never. intros Hp Hf.
  induction p as [a | | X op k IH]; simpl in *; auto.
  destruct Hp as [Hop Hk]. split; auto.
Qed.

Lemma never_run kind {A} (p : Prog A) (st : St E) a st' :
  never kind p ->
  run c p st = Some (a, st') ->
  calls kind (trace st') = calls kind (trace st).
Proof.
  unfold never. revert st.
  induction p as [a0 | | X op k IH]; simpl; intros st Hp Hrun.
  - inversion Hrun; subst; reflexivity.
  - discriminate.
  - destruct Hp as [Hop Hk].
    unfold perform in Hrun. destruct (handle c op (env st)) as [x e'].
    apply IH in Hrun; [| apply Hk]. rewrite Hrun. simpl.
    rewrite calls_app, calls_record_other; [lia |].
    now apply negb_true_iff in Hop.
Qed.

End RunFacts.

(** Unfold the run of a program up to its next call. *)
Ltac run_simpl :=
  cbn [run bind call logger_Printf logger_Errorf logger_PrintAuthf];
  unfold perform;
  cbn [run bind call handle record env trace fst snd negb].

(** Feed the answer [H] of a collaborator to the run. *)
Ltac answer H := run_simpl; rewrite H; run_simpl.

(** ** Reasoning in a discipline *)

Section WpFacts.
Context {S : Type}.
Variable permitted : forall X, Op X -> S -> bool.
Variable advance : forall X, Op X -> X -> S -> S.

Lemma wp_mono {A} (p : Prog A) (Q Q' : A -> S -> Prop) : forall s,
  (forall a s', Q a s' -> Q' a s') ->
  wp permitted advance s p Q -> wp permitted advance s p Q'.
Proof.
  induction p as [a | | X op k IH]; cbn; intros s HQ H; auto.
  destruct H as [Hop Hk]. split; [exact Hop |].
  intros x. eapply IH; eauto.
Qed.

Lemma wp_bind {A B} (p : Prog A) (f : A -> Prog B) (Q : B -> S -> Prop) :
  forall s,
    wp permitted advance s p (fun a s' => wp permitted advance s' (f a) Q) ->
    wp permitted advance s (bind p f) Q.
Proof.
  induction p as [a | | X op k IH]; cbn; intros s H; auto.
  destruct H as [Hop Hk]. split; [exact Hop |].
  intros x. apply IH, Hk.
Qed.

(** The rule of sequence: a specification of [p], then one of what
    follows. *)
Lemma wp_seq {A B} (p : Prog A) (f : A -> Prog B) (R : A -> S -> Prop)
      (Q : B -> S -> Prop) s :
  wp permitted advance s p R ->
  (forall a s', R a s' -> wp permitted advance s' (f a) Q) ->
  wp permitted advance s (bind p f) Q.
Proof.
  intros Hp Hf. apply wp_bind. eapply wp_mono; [| exact Hp]. exact Hf.
Qed.

Lemma wp_call {X} (op : Op X) (Q : X -> S -> Prop) s :
  permitted X op s = true ->
  (forall x, Q x (advance X op x s)) ->
  wp permitted advance s (call op) Q.
Proof. intros Hop HQ. cbn. auto. Qed.

End WpFacts.

(** *** Calls a program never makes *)

Lemma never_ret kind {A} (a : A) : never kind (Ret a).
Proof. exact I. Qed.

Lemma never_call kind {X} (op : Op X) : kind X op = false -> never kind (call op).
Proof. intros H. unfold never. cbn. now rewrite H. Qed.

Ltac never_tac :=
  repeat match goal with
    | |- forall _, never _ _ => intro; cbv beta
    | |- never _ (match ?x with _ => _ end) => destruct x
    | |- never _ (Ret _) => apply never_ret
    | |- never _ (call _) => apply never_call; reflexivity
    | |- never _ (bind _ _) => apply never_bind
    end.

Section NoNext.
Variable refreshPeriod : Duration.

Lemma peekLoop_never (kind : forall X, Op X -> bool) fuel : forall w,
  kind _ PeekLock = false ->
  kind _ (Sleep SessionLockPeekDelay) = false ->
  never kind (peekLoop fuel w).
Proof.
  induction fuel as [| fuel IH]; intros w Hp Hs; cbn [peekLoop]; [exact I |].
  apply never_bind; [now apply never_call |].
  intros [[] err]; [| apply never_ret].
  apply never_bind; [now apply never_call |]. intro. now apply IH.
Qed.

Lemma getValidatedSession_never_next fuel :
  never (@isNext) (getValidatedSession refreshPeriod fuel).
Proof.
  unfold getValidatedSession, refreshSessionIfNeeded, validateSession,
    waitForPossibleSessionLock, updateSessionFromStore, refreshSession,
    refreshLocked, releaseDeferred, logger_Printf, logger_Errorf,
    logger_PrintAuthf.
  never_tac; try (apply peekLoop_never; reflexivity).
Qed.

Lemma clearOnError_never_next err : never (@isNext) (clearOnError err).
Proof. unfold clearOnError, logger_Errorf. never_tac. Qed.

End NoNext.

(** ** One request *)

Section Sequential.
Context {E : Type}.
Variable c : Collaborators E.
Variable refreshPeriod : Duration.

(** The two steps of the validation. *)
Lemma validateSession_run (session : SessionState) (st : St E) :
  run c (validateSession session) st =
  if IsExpired session (Now c (env st)) then
    Some (Some (errors_New "session is expired"), st)
  else
    let '(ok, e') := sessionValidator c session (env st) in
    Some (if ok then None else Some (errors_New "session is invalid"),
          mkSt e' (trace st ++ [Call (Validator session) ok])).
Proof.
  destruct st as [e tr]. unfold validateSession. run_simpl.
  rewrite app_nil_r.
  destruct (IsExpired session (Now c e)); [reflexivity |].
  run_simpl. destruct (sessionValidator c session e) as [[] e']; reflexivity.
Qed.

(** C5.  Validation is total and two-valued: it fails when
    now >= expiry, whatever the validator would say (it is not even
    asked), and otherwise it fails exactly when the provider's
    validator answers false. *)
Theorem validateSession_verdict (session : SessionState) (st : St E) :
  exists res st',
    run c (validateSession session) st = Some (res, st') /\
    (res <> None <->
     ExpiresOn session <= Now c (env st) \/
     fst (sessionValidator c session (env st)) = false) /\
    (ExpiresOn session <= Now c (env st) ->
     res = Some (errors_New "session is expired") /\ st' = st) /\
    (res = None \/
     res = Some (errors_New "session is expired") \/
     res = Some (errors_New "session is invalid")).
Proof.
  rewrite validateSession_run. unfold IsExpired.
  destruct (Z.leb_spec (ExpiresOn session) (Now c (env st))) as [Hexp | Hlive].
  - eexists _, _. split; [reflexivity |].
    repeat split; auto; discriminate.
  - destruct (sessionValidator c session (env st)) as [[] e']; cbn [fst];
      (eexists _, _; split; [reflexivity |]); (split; [| split]); auto.
    + split; [congruence |]. intros [H | H]; [lia | discriminate].
    + intros H. lia.
    + split; [auto | discriminate].
    + intros H. lia.
Qed.

(** *** The wait loop *)

Lemma peekLoop_released fuel w st err e2 :
  Peek (lock c) (env st) = ((false, err), e2) ->
  run c (peekLoop (S fuel) w) st =
  Some ((w, err), mkSt e2 (trace st ++ [Call PeekLock (false, err)])).
Proof. intros H. cbn [peekLoop]. answer H. reflexivity. Qed.

Lemma peekLoop_polls n : forall st stw fuel w,
  polls c n st = Some stw ->
  run c (peekLoop (n + fuel) w) st =
  run c (peekLoop fuel (w || (0 <? n)%nat)) stw.
Proof.
  induction n as [| n IH]; intros st stw fuel w Hp; cbn [polls] in Hp.
  - inversion Hp; subst. cbn. now rewrite orb_false_r.
  - destruct (perform c PeekLock st) as [[isLocked err] st1] eqn:Hpeek.
    cbn [fst] in Hp. destruct isLocked; [| discriminate].
    cbn [Nat.add peekLoop bind call run]. rewrite Hpeek.
    cbn [bind run]. 
    destruct (perform c (Sleep SessionLockPeekDelay) st1) as [u st2] eqn:Hs.
    cbn [snd] in Hp. rewrite (IH _ _ fuel true Hp).
    cbn. now rewrite orb_true_r.
Qed.

Lemma polls_trace n : forall st stw,
  polls c n st = Some stw ->
  exists errs,
    List.length errs = n /\
    trace stw =
    trace st ++
    flat_map (fun err => [Call PeekLock (true, err);
                          Call (Sleep SessionLockPeekDelay) tt]) errs.
Proof.
  induction n as [| n IH]; intros st stw Hp; cbn [polls] in Hp.
  - inversion Hp; subst. exists []. cbn. now rewrite app_nil_r.
  - unfold perform in Hp. cbn [handle record env trace] in Hp.
    destruct (Peek (lock c) (env st)) as [[isLocked err] e1].
    cbn [fst snd] in Hp. destruct isLocked; [| discriminate].
    apply IH in Hp. destruct Hp as (errs & Hlen & Htr).
    exists (err :: errs). split; [cbn; now rewrite Hlen |].
    rewrite Htr. cbn [trace flat_map]. rewrite <- !app_assoc. reflexivity.
Qed.

(** Peeking and sleeping is all that happens while the lock is seen
    held. *)
Lemma calls_polled (kind : forall X, Op X -> bool) (errs : list (option error)) :
  kind _ PeekLock = false ->
  kind _ (Sleep SessionLockPeekDelay) = false ->
  calls kind
        (flat_map (fun err => [Call PeekLock (true, err);
                               Call (Sleep SessionLockPeekDelay) tt]) errs) =
  0%nat.
Proof.
  intros Hpeek Hsleep. induction errs as [| err errs IH]; [reflexivity |].
  cbn [flat_map]. rewrite calls_app, IH. unfold calls. cbn [filter].
  rewrite Hpeek, Hsleep. reflexivity.
Qed.

(** *** Termination *)

Lemma terminates_bind {A B} (p : Prog A) (f : A -> Prog B) st :
  terminates c p st ->
  (forall a st', run c p st = Some (a, st') -> terminates c (f a) st') ->
  terminates c (bind p f) st.
Proof.
  intros (a & st' & Hp) Hf. unfold terminates. rewrite run_bind, Hp.
  now apply Hf.
Qed.

Lemma total_bind {A B} (p : Prog A) (f : A -> Prog B) :
  total c p -> (forall a, total c (f a)) -> total c (bind p f).
Proof.
  intros Hp Hf st. apply terminates_bind; [apply Hp |].
  intros a st' _. apply Hf.
Qed.

Lemma total_ret {A} (a : A) : total c (Ret a).
Proof. intros st. now exists a, st. Qed.

Lemma total_call {X} (op : Op X) : total c (call op).
Proof.
  intros st. unfold terminates. rewrite run_call.
  destruct (perform c op st) as [x st']. now exists x, st'.
Qed.

Lemma peekLoop_terminates n : forall fuel w st,
  releasedWithin c n (env st) = true ->
  (n <= fuel)%nat ->
  terminates c (peekLoop fuel w) st.
Proof.
  induction n as [| n IH]; intros fuel w st Hrel Hle; cbn [releasedWithin] in Hrel.
  - discriminate.
  - destruct fuel as [| fuel]; [lia |].
    destruct (Peek (lock c) (env st)) as [[isLocked err] e1] eqn:Hpeek.
    cbn [fst] in Hrel. unfold terminates. cbn [peekLoop]. answer Hpeek.
    destruct isLocked.
    + run_simpl. apply IH; [exact Hrel | lia].
    + run_simpl. eauto.
Qed.

Ltac total_tac :=
  repeat match goal with
    | |- forall _, total _ _ => intro; cbv beta
    | |- total _ (match ?x with _ => _ end) => destruct x
    | |- total _ (Ret _) => apply total_ret
    | |- total _ (call _) => apply total_call
    | |- total _ (bind _ _) => apply total_bind
    end.

Lemma validateSession_total session : total c (validateSession session).
Proof. unfold validateSession. total_tac. Qed.

Lemma updateSessionFromStore_total session :
  total c (updateSessionFromStore session).
Proof. unfold updateSessionFromStore. total_tac. Qed.

Lemma refreshSession_total session : total c (refreshSession session).
Proof.
  unfold refreshSession, refreshLocked, releaseDeferred, logger_Errorf,
    logger_PrintAuthf.
  total_tac.
Qed.

Lemma clearOnError_total err : total c (clearOnError err).
Proof. unfold clearOnError, logger_Errorf. total_tac. Qed.

Lemma waitForPossibleSessionLock_terminates n fuel st :
  releasedWithin c n (env st) = true ->
  (n <= fuel)%nat ->
  terminates c (waitForPossibleSessionLock fuel) st.
Proof.
  intros Hrel Hle. unfold waitForPossibleSessionLock.
  apply terminates_bind; [now apply peekLoop_terminates with (n := n) |].
  intros [w [e |]] st' _; apply total_ret.
Qed.

Lemma refreshSessionIfNeeded_terminates n fuel session st :
  releasedWithin c n (env st) = true ->
  (n <= fuel)%nat ->
  terminates c (refreshSessionIfNeeded refreshPeriod fuel session) st.
Proof.
  intros Hrel Hle. unfold refreshSessionIfNeeded.
  apply terminates_bind; [apply total_call |].
  intros now st1 Hnow. rewrite run_call in Hnow.
  assert (st1 = st) as ->.
  { unfold perform in Hnow. cbn in Hnow. rewrite app_nil_r in Hnow.
    destruct st. now inversion Hnow. }
  destruct (_ || _); [apply total_ret |].
  apply terminates_bind;
    [now apply waitForPossibleSessionLock_terminates with (n := n) |].
  intros [w [e |]] st2 _; [apply total_ret |].
  destruct w.
  - apply total_bind; [apply total_call |]. intro.
    apply updateSessionFromStore_total.
  - unfold logger_Printf, logger_Errorf.
    apply total_bind; [apply total_call |]. intro.
    apply total_bind; [apply total_call |]. intro.
    apply total_bind; [apply refreshSession_total |].
    total_tac.
Qed.

(** *** The refresh under the lock *)

Ltac run_auto :=
  repeat (run_simpl; rewrite ?app_nil_r;
          try match goal with
            | H : ?lhs = (_, _) |- context [?lhs] => rewrite H
            end).

Ltac trace_eq :=
  cbn [trace env]; rewrite <- ?app_assoc; cbn [app]; reflexivity.

(** C2, as the code has it.  When the refresher answers with the
    "not implemented" sentinel, the session is stamped with the
    current time and saved, exactly as after a real refresh: Save is
    called once, with the stamped session, and a failure to save is
    what the function returns. *)
Theorem refreshSession_not_implemented_saves
        (session refreshedSession : SessionState) (refreshed : bool)
        (err : error) (saveErr releaseErr : option error)
        (st : St E) (e1 e2 e3 e4 : E) :
  Obtain (lock c) SessionLockExpireTime (env st) = (None, e1) ->
  sessionRefresher c session e1 = ((refreshedSession, refreshed, Some err), e2) ->
  errors_Is err ErrNotImplemented = true ->
  let stamped := CreatedAtNow refreshedSession (Now c e2) in
  Save (store c) stamped e2 = (saveErr, e3) ->
  Release (lock c) e3 = (releaseErr, e4) ->
  exists st',
    run c (refreshSession session) st =
    Some ((stamped,
           match saveErr with
           | Some e => Some (fmt_Errorf "error saving session: %v" [FErr e])
           | None => None
           end), st') /\
    CreatedAt stamped = Now c e2 /\
    calls (@isSave) (trace st') = (calls (@isSave) (trace st) + 1)%nat /\
    trace st' =
    trace st ++
    [Call (ObtainLock SessionLockExpireTime) None;
     Call (Refresher session) (refreshedSession, refreshed, Some err);
     Call (StoreSave stamped) saveErr] ++
    match saveErr with
    | Some e => [Call (Log LogAuthError "error saving session: %v"
                           [FString (Email stamped); FErr e]) tt]
    | None => []
    end ++
    [Call ReleaseLock releaseErr] ++
    match releaseErr with
    | Some e => [Call (Log LogError "unable to release lock: %v" [FErr e]) tt]
    | None => []
    end.
Proof.
  intros Hobt Href Hni stamped Hsave Hrel. destruct st as [e tr].
  cbn [env trace] in *.
  unfold refreshSession, refreshLocked, releaseDeferred. run_auto.
  rewrite Hni. run_auto. fold stamped. rewrite Hsave.
  destruct saveErr as [se |]; run_auto; try rewrite Hrel;
    destruct releaseErr as [re |]; run_auto;
    (eexists; split; [reflexivity |]; split; [reflexivity |]; split;
     [cbn [trace]; rewrite !calls_app; cbn; lia | trace_eq]).
Qed.

(** *** The handler, stage by stage *)

Lemma due_test (age : Duration) :
  0 < refreshPeriod -> refreshPeriod <= age ->
  (refreshPeriod <=? 0) || (age <? refreshPeriod) = false.
Proof.
  intros Hpos Hage. apply orb_false_iff. split; [apply Z.leb_gt | apply Z.ltb_ge]; lia.
Qed.

Lemma getValidatedSession_loaded fuel session st e1 :
  Load (store c) (env st) = ((Some session, None), e1) ->
  run c (getValidatedSession refreshPeriod fuel) st =
  match run c (refreshSessionIfNeeded refreshPeriod fuel session)
            (mkSt e1 (trace st ++ [Call StoreLoad (Some session, None)])) with
  | Some ((session', None), st1) => validated c session' st1
  | Some ((session', Some e), st1) =>
      Some ((None,
             Some (fmt_Errorf "error refreshing access token for session (%s): %v"
                              [FSession session'; FErr e])), st1)
  | None => None
  end.
Proof.
  intros Hload. unfold getValidatedSession. run_auto.
  rewrite run_bind.
  destruct (run c (refreshSessionIfNeeded refreshPeriod fuel session) _)
    as [[[session' [e |]] st1] |]; trivial.
  unfold validated. rewrite run_bind.
  destruct (run c (validateSession session') st1) as [[[e |] st2] |]; trivial.
Qed.

Lemma loadSession_run fuel scope st :
  Session scope = None ->
  run c (loadSession refreshPeriod fuel (Some scope)) st =
  match run c (getValidatedSession refreshPeriod fuel) st with
  | Some ((session, err), st1) =>
      match run c (clearOnError err) st1 with
      | Some (_, st2) =>
          Some (Served {| Session := session |},
                mkSt (next c {| Session := session |} (env st2))
                     (trace st2 ++
                      [Call (NextServeHTTP {| Session := session |}) tt]))
      | None => None
      end
  | None => None
  end.
Proof.
  intros Hnone. unfold loadSession. rewrite Hnone, run_bind.
  destruct (run c (getValidatedSession refreshPeriod fuel) st)
    as [[[session err] st1] |]; trivial.
  rewrite run_bind.
  destruct (run c (clearOnError err) st1) as [[u st2] |]; trivial.
Qed.

Lemma clearOnError_clears e clearErr st e2 :
  errors_Is e ErrNoCookie = false ->
  Clear (store c) (env st) = (clearErr, e2) ->
  run c (clearOnError (Some e)) st =
  Some (tt,
        mkSt e2
             (trace st ++
              [Call (Log LogError
                         "Error loading cookied session: %v, removing session"
                         [FErr e]) tt;
               Call StoreClear clearErr] ++
              match clearErr with
              | Some e' =>
                  [Call (Log LogError "Error removing session: %v" [FErr e']) tt]
              | None => []
              end)).
Proof.
  intros His Hclear. destruct st as [e0 tr]. cbn [env trace] in *.
  unfold clearOnError. rewrite His. run_auto.
  destruct clearErr; run_auto; f_equal; f_equal; f_equal; trace_eq.
Qed.

(** C8, as the code has it.  A request that is denied the lock logs
    the denial and skips the refresh: it neither sleeps nor peeks
    again nor loads the session a second time, and the session it
    loaded is the one that goes to validation. *)
Theorem obtain_denied_skips_refresh
        (fuel : nat) (session : SessionState) (err : error)
        (st : St E) (e1 e2 e3 : E) :
  Load (store c) (env st) = ((Some session, None), e1) ->
  0 < refreshPeriod ->
  refreshPeriod <= Age session (Now c e1) ->
  Peek (lock c) e1 = ((false, None), e2) ->
  Obtain (lock c) SessionLockExpireTime e2 = (Some err, e3) ->
  run c (getValidatedSession refreshPeriod (S fuel)) st =
  validated c session
    (mkSt e3
          (trace st ++
           [Call StoreLoad (Some session, None);
            Call PeekLock (false, None);
            Call (Log LogInfo "Refreshing session - User: %s; SessionAge: %s"
                      [FString (User session);
                       FDuration (Age session (Now c e2))]) tt;
            Call (ObtainLock SessionLockExpireTime) (Some err);
            Call (Log LogError "unable to obtain lock (skipping refresh): %v"
                      [FErr err]) tt])).
Proof.
  intros Hload Hpos Hage Hpeek Hobt.
  rewrite (getValidatedSession_loaded _ _ _ _ Hload).
  unfold refreshSessionIfNeeded, waitForPossibleSessionLock, refreshSession.
  cbn [peekLoop]. run_auto. rewrite (due_test _ Hpos Hage). run_auto.
  f_equal. f_equal. trace_eq.
Qed.

(** The deferred release never changes what [refreshSession]
    returns; its error is logged. *)
Lemma refreshSession_release session st e1 r st2 releaseErr e3 :
  Obtain (lock c) SessionLockExpireTime (env st) = (None, e1) ->
  run c (refreshLocked session)
      (mkSt e1 (trace st ++ [Call (ObtainLock SessionLockExpireTime) None])) =
  Some (r, st2) ->
  Release (lock c) (env st2) = (releaseErr, e3) ->
  run c (refreshSession session) st =
  Some (r,
        mkSt e3
             (trace st2 ++
              [Call ReleaseLock releaseErr] ++
              match releaseErr with
              | Some e =>
                  [Call (Log LogError "unable to release lock: %v" [FErr e]) tt]
              | None => []
              end)).
Proof.
  intros Hobt Hbody Hrel. destruct st as [e tr]. cbn [env trace] in *.
  unfold refreshSession. run_auto. rewrite run_bind, Hbody.
  destruct st2 as [e2 tr2]. cbn [env trace] in *.
  unfold releaseDeferred. run_auto.
  destruct releaseErr; run_auto; f_equal; f_equal; f_equal; trace_eq.
Qed.

(** C9, as the code has it.  For a loaded session that is due for a
    refresh: (a) an error of ObtainLock, whatever it is, is logged and
    the refresh is skipped without sleeping, and the request goes on to
    the validation of the session as it is; (b) an error of ReleaseLock
    is logged and leaves the result of the refresh as it was; (c) an
    error of PeekLock that comes with "not held", at the first peek or
    after any number of peeks that found the lock held, is returned:
    the session is neither reloaded nor refreshed nor validated, the
    handler clears the store and attaches no session; (d) an error of
    PeekLock that comes with "held" is dropped and polling goes on. *)
Theorem lock_errors_outcome
        (fuel : nat) (session : SessionState) (st : St E) (e1 : E) :
  Load (store c) (env st) = ((Some session, None), e1) ->
  0 < refreshPeriod ->
  refreshPeriod <= Age session (Now c e1) ->
  let st1 := mkSt e1 (trace st ++ [Call StoreLoad (Some session, None)]) in
  (forall err e2 e3,
      Peek (lock c) e1 = ((false, None), e2) ->
      Obtain (lock c) SessionLockExpireTime e2 = (Some err, e3) ->
      exists st',
        run c (refreshSessionIfNeeded refreshPeriod (S fuel) session) st1 =
        Some ((session, None), st') /\
        run c (getValidatedSession refreshPeriod (S fuel)) st =
        validated c session st' /\
        In (Call (Log LogError "unable to obtain lock (skipping refresh): %v"
                      [FErr err]) tt) (trace st') /\
        calls (@isSleep) (trace st') = calls (@isSleep) (trace st) /\
        calls (@isRefresher) (trace st') = calls (@isRefresher) (trace st)) /\
  (forall stl e2 r st2 err e3,
      Obtain (lock c) SessionLockExpireTime (env stl) = (None, e2) ->
      run c (refreshLocked session)
          (mkSt e2 (trace stl ++ [Call (ObtainLock SessionLockExpireTime) None])) =
      Some (r, st2) ->
      Release (lock c) (env st2) = (Some err, e3) ->
      run c (refreshSession session) stl =
      Some (r,
            mkSt e3
                 (trace st2 ++
                  [Call ReleaseLock (Some err);
                   Call (Log LogError "unable to release lock: %v" [FErr err])
                        tt]))) /\
  (forall n stw scope err e2 clearErr e3,
      Session scope = None ->
      polls c n st1 = Some stw ->
      Peek (lock c) (env stw) = ((false, Some err), e2) ->
      Clear (store c) e2 = (clearErr, e3) ->
      let fatal :=
        fmt_Errorf "error refreshing access token for session (%s): %v"
                   [FSession session; FErr err] in
      run c (getValidatedSession refreshPeriod (n + S fuel)) st =
      Some ((None, Some fatal),
            mkSt e2 (trace stw ++ [Call PeekLock (false, Some err)])) /\
      exists st',
        run c (loadSession refreshPeriod (n + S fuel) (Some scope)) st =
        Some (Served {| Session := None |}, st') /\
        calls (@isClear) (trace st') = (calls (@isClear) (trace st) + 1)%nat /\
        calls (@isValidator) (trace st') = calls (@isValidator) (trace st) /\
        calls (@isLoad) (trace st') = (calls (@isLoad) (trace st) + 1)%nat /\
        calls (@isRefresher) (trace st') = calls (@isRefresher) (trace st)) /\
  (forall stl w err e2,
      Peek (lock c) (env stl) = ((true, Some err), e2) ->
      run c (peekLoop (S fuel) w) stl =
      run c (peekLoop fuel true)
          (mkSt (time_Sleep c SessionLockPeekDelay e2)
                (trace stl ++
                 [Call PeekLock (true, Some err);
                  Call (Sleep SessionLockPeekDelay) tt]))).
Proof.
  intros Hload Hpos Hage st1.
  assert (Hgv : run c (getValidatedSession refreshPeriod (S fuel)) st =
                match run c (refreshSessionIfNeeded refreshPeriod (S fuel) session)
                          st1 with
                | Some ((session', None), st2) => validated c session' st2
                | Some ((session', Some e), st2) =>
                    Some ((None,
                           Some (fmt_Errorf
                                   "error refreshing access token for session (%s): %v"
                                   [FSession session'; FErr e])), st2)
                | None => None
                end) by exact (getValidatedSession_loaded _ _ _ _ Hload).
  destruct st as [e tr]. cbn [env trace] in *. subst st1.
  split; [| split; [| split]].
  - intros err e2 e3 Hpeek Hobt. rewrite Hgv.
    unfold refreshSessionIfNeeded, waitForPossibleSessionLock, refreshSession.
    cbn [peekLoop]. run_auto. rewrite (due_test _ Hpos Hage). run_auto.
    eexists. split; [reflexivity |]. split; [reflexivity |]. cbn [trace].
    split; [| split].
    + rewrite !in_app_iff. right. now left.
    + rewrite !calls_app. cbn. lia.
    + rewrite !calls_app. cbn. lia.
  - intros stl e2 r st2 err e3 Hobt Hbody Hrel.
    rewrite (refreshSession_release _ _ _ _ _ _ _ Hobt Hbody Hrel).
    reflexivity.
  - intros n stw scope err e2 clearErr e3 Hscope Hpolls Hpeek Hclear.
    set (fatal := fmt_Errorf _ [FSession session; FErr err]).
    assert (Hrun : run c (getValidatedSession refreshPeriod (n + S fuel))
                       (mkSt e tr) =
                   Some ((None, Some fatal),
                         mkSt e2 (trace stw ++
                                  [Call PeekLock (false, Some err)]))).
    { rewrite (getValidatedSession_loaded (n + S fuel) session (mkSt e tr) e1
                                          Hload).
      unfold refreshSessionIfNeeded, waitForPossibleSessionLock.
      cbn [env trace]. run_auto. rewrite (due_test _ Hpos Hage).
      rewrite !run_bind, (peekLoop_polls _ _ _ _ _ Hpolls).
      rewrite (peekLoop_released _ _ _ _ _ Hpeek). run_auto.
      reflexivity. }
    split; [exact Hrun |].
    rewrite (loadSession_run _ _ _ Hscope), Hrun.
    erewrite clearOnError_clears; [| reflexivity | cbn [env]; eassumption].
    eexists. split; [reflexivity |].
    destruct (polls_trace _ _ _ Hpolls) as (errs & _ & Htr).
    cbn [trace] in *. rewrite Htr, !calls_app.
    rewrite !calls_polled by reflexivity.
    repeat split; destruct clearErr; cbn; lia.
  - intros stl w err e2 Hpeek. destruct stl as [el trl]. cbn [env trace] in *.
    cbn [peekLoop]. run_auto. f_equal. f_equal. trace_eq.
Qed.

(** Whatever error [refreshSession] returns is returned by the
    refresh step, and [getValidatedSession] then returns without
    validating the session. *)
Lemma refresh_failure_is_fatal fuel session refreshedSession err
      (st st3 : St E) (e1 e2 : E) :
  Load (store c) (env st) = ((Some session, None), e1) ->
  0 < refreshPeriod ->
  refreshPeriod <= Age session (Now c e1) ->
  Peek (lock c) e1 = ((false, None), e2) ->
  run c (refreshSession session)
      (mkSt e2
            (trace st ++
             [Call StoreLoad (Some session, None);
              Call PeekLock (false, None);
              Call (Log LogInfo "Refreshing session - User: %s; SessionAge: %s"
                        [FString (User session);
                         FDuration (Age session (Now c e2))]) tt])) =
  Some ((refreshedSession, Some err), st3) ->
  run c (getValidatedSession refreshPeriod (S fuel)) st =
  Some ((None,
         Some (fmt_Errorf "error refreshing access token for session (%s): %v"
                          [FSession refreshedSession; FErr err])),
        mkSt (env st3)
             (trace st3 ++
              [Call (Log LogError "Unable to refresh session: %v" [FErr err])
                    tt])).
Proof.
  intros Hload Hpos Hage Hpeek Hrefresh.
  rewrite (getValidatedSession_loaded _ _ _ _ Hload).
  unfold refreshSessionIfNeeded, waitForPossibleSessionLock.
  cbn [peekLoop]. run_auto. rewrite (due_test _ Hpos Hage). run_auto.
  rewrite !run_bind.
  match goal with
  | |- context [run c (refreshSession session) ?s] =>
      replace s with
        (mkSt e2
              (trace st ++
               [Call StoreLoad (Some session, None);
                Call PeekLock (false, None);
                Call (Log LogInfo "Refreshing session - User: %s; SessionAge: %s"
                          [FString (User session);
                           FDuration (Age session (Now c e2))]) tt]))
        by (f_equal; rewrite <- !app_assoc; reflexivity)
  end.
  rewrite Hrefresh. destruct st3 as [e3 tr3]. run_auto. reflexivity.
Qed.

(** *** Waiting for the holder *)

(** The refresh step of a request that saw the lock held [S n] times
    and then free: what is left is to reload from the store. *)
Lemma refreshSessionIfNeeded_waited fuel n session st stw e2 :
  0 < refreshPeriod ->
  refreshPeriod <= Age session (Now c (env st)) ->
  polls c (S n) st = Some stw ->
  Peek (lock c) (env stw) = ((false, None), e2) ->
  (S n < fuel)%nat ->
  run c (refreshSessionIfNeeded refreshPeriod fuel session) st =
  run c (updateSessionFromStore session)
      (mkSt e2 (trace stw ++
                [Call PeekLock (false, None);
                 Call (Log LogInfo "update session from store" []) tt])).
Proof.
  intros Hpos Hage Hpolls Hpeek Hfuel.
  unfold refreshSessionIfNeeded, waitForPossibleSessionLock.
  destruct st as [e tr]. cbn [env] in Hage. run_auto.
  rewrite (due_test _ Hpos Hage).
  replace fuel with (S n + S (fuel - S (S n)))%nat by lia.
  rewrite !run_bind, (peekLoop_polls _ _ _ _ _ Hpolls).
  rewrite (peekLoop_released _ _ _ _ _ Hpeek).
  cbn [orb Nat.ltb Nat.leb]. run_auto. f_equal. f_equal. trace_eq.
Qed.

(** C7.  A request that finds the refresh due and the lock held
    peeks and sleeps 50 ms, again and again, until a peek finds the
    lock free; it then loads the session from the store and goes to
    validation with the loaded record in place of its own.  The
    refresher is not called on the way. *)
Theorem waiter_adopts_stored_session
        (fuel n : nat) (session stored : SessionState)
        (st stw : St E) (e1 e2 e3 : E) :
  Load (store c) (env st) = ((Some session, None), e1) ->
  0 < refreshPeriod ->
  refreshPeriod <= Age session (Now c e1) ->
  polls c (S n) (mkSt e1 (trace st ++ [Call StoreLoad (Some session, None)])) =
  Some stw ->
  Peek (lock c) (env stw) = ((false, None), e2) ->
  Load (store c) e2 = ((Some stored, None), e3) ->
  (S n < fuel)%nat ->
  exists errs,
    List.length errs = S n /\
    let tr :=
      trace st ++
      [Call StoreLoad (Some session, None)] ++
      flat_map (fun err => [Call PeekLock (true, err);
                            Call (Sleep 50000000) tt]) errs ++
      [Call PeekLock (false, None);
       Call (Log LogInfo "update session from store" []) tt;
       Call StoreLoad (Some stored, None)] in
    run c (getValidatedSession refreshPeriod fuel) st =
    validated c stored (mkSt e3 tr) /\
    calls (@isRefresher) tr = calls (@isRefresher) (trace st).
Proof.
  intros Hload Hpos Hage Hpolls Hpeek Hreload Hfuel.
  destruct (polls_trace _ _ _ Hpolls) as (errs & Hlen & Htr).
  cbn [trace] in Htr.
  exists errs. split; [exact Hlen |]. cbv zeta. split.
  - rewrite (getValidatedSession_loaded _ _ _ _ Hload).
    rewrite (refreshSessionIfNeeded_waited fuel n session _ stw e2);
      trivial.
    unfold updateSessionFromStore. run_auto.
    rewrite Htr. f_equal. f_equal. rewrite <- !app_assoc. reflexivity.
  - rewrite !calls_app.
    assert (calls (@isRefresher)
                  (flat_map (fun err => [Call PeekLock (true, err);
                                         Call (Sleep 50000000) tt]) errs) = 0%nat)
      as ->.
    { clear. induction errs as [| err errs IH]; [reflexivity |].
      cbn [flat_map]. rewrite calls_app, IH. reflexivity. }
    cbn. lia.
Qed.

(** C10.  When the reload after the wait finds no session, with no
    error from the store, [updateSessionFromStore] makes an error of
    it; the handler then clears the store and attaches no session.
    The same answer to the first load of a request is no error at
    all: nothing is logged or cleared. *)
Theorem reload_absent_is_fatal
        (fuel n : nat) (scope : RequestScope) (session : SessionState)
        (st stw st0 : St E) (e1 e2 e3 e4 e0 : E) (clearErr : option error) :
  Session scope = None ->
  Load (store c) (env st) = ((Some session, None), e1) ->
  0 < refreshPeriod ->
  refreshPeriod <= Age session (Now c e1) ->
  polls c (S n) (mkSt e1 (trace st ++ [Call StoreLoad (Some session, None)])) =
  Some stw ->
  Peek (lock c) (env stw) = ((false, None), e2) ->
  Load (store c) e2 = ((None, None), e3) ->
  Clear (store c) e3 = (clearErr, e4) ->
  (S n < fuel)%nat ->
  Load (store c) (env st0) = ((None, None), e0) ->
  let absent := fmt_Errorf "no session available to udpate from store" [] in
  let fatal :=
    fmt_Errorf "error refreshing access token for session (%s): %v"
               [FSession session; FErr absent] in
  let waited :=
    trace stw ++
    [Call PeekLock (false, None);
     Call (Log LogInfo "update session from store" []) tt] in
  run c (updateSessionFromStore session) (mkSt e2 waited) =
  Some ((session, Some absent),
        mkSt e3 (waited ++ [Call StoreLoad (None, None)])) /\
  run c (loadSession refreshPeriod fuel (Some scope)) st =
  Some (Served {| Session := None |},
        mkSt (next c {| Session := None |} e4)
             (waited ++
              [Call StoreLoad (None, None);
               Call (Log LogError
                         "Error loading cookied session: %v, removing session"
                         [FErr fatal]) tt;
               Call StoreClear clearErr] ++
              match clearErr with
              | Some e' =>
                  [Call (Log LogError "Error removing session: %v" [FErr e']) tt]
              | None => []
              end ++
              [Call (NextServeHTTP {| Session := None |}) tt])) /\
  run c (loadSession refreshPeriod fuel (Some scope)) st0 =
  Some (Served {| Session := None |},
        mkSt (next c {| Session := None |} e0)
             (trace st0 ++
              [Call StoreLoad (None, None);
               Call (NextServeHTTP {| Session := None |}) tt])).
Proof.
  intros Hscope Hload Hpos Hage Hpolls Hpeek Hreload Hclear Hfuel Hload0.
  intros absent fatal waited.
  assert (Hupd : run c (updateSessionFromStore session) (mkSt e2 waited) =
                 Some ((session, Some absent),
                       mkSt e3 (waited ++ [Call StoreLoad (None, None)]))).
  { unfold updateSessionFromStore. run_auto. reflexivity. }
  split; [exact Hupd | split].
  - rewrite (loadSession_run _ _ _ Hscope).
    rewrite (getValidatedSession_loaded _ _ _ _ Hload).
    rewrite (refreshSessionIfNeeded_waited fuel n session _ stw e2); trivial.
    fold waited. rewrite Hupd. fold absent. fold fatal.
    erewrite clearOnError_clears; [| reflexivity | cbn [env]; eassumption].
    cbn [env trace]. f_equal. f_equal. f_equal.
    destruct clearErr; rewrite <- !app_assoc; reflexivity.
  - rewrite (loadSession_run _ _ _ Hscope).
    unfold getValidatedSession. destruct st0 as [e tr]. cbn [env trace] in *.
    run_auto. cbn [clearOnError run]. trace_eq.
Qed.

(** *** The handler as a whole *)

(** Where the result of [getValidatedSession] comes from. *)
Lemma getValidatedSession_cases fuel st session err st1 :
  run c (getValidatedSession refreshPeriod fuel) st = Some ((session, err), st1) ->
  match Load (store c) (env st) with
  | ((_, Some e0), _) => session = None /\ err = Some e0
  | ((None, None), _) => session = None /\ err = None
  | ((Some _, None), _) =>
      (session <> None /\ err = None) \/
      (session = None /\
       exists e, err = Some e /\ errors_Is e ErrNoCookie = false)
  end.
Proof.
  intros Hrun.
  destruct (Load (store c) (env st)) as [[ls le] e1] eqn:Hload.
  destruct le as [e0 |]; [| destruct ls as [s0 |]].
  - unfold getValidatedSession in Hrun. destruct st as [e tr].
    cbn [env] in Hload. revert Hrun. run_auto. destruct ls; run_auto;
      intros Hrun; inversion Hrun; auto.
  - rewrite (getValidatedSession_loaded _ _ _ _ Hload) in Hrun.
    destruct (run c (refreshSessionIfNeeded refreshPeriod fuel s0) _)
      as [[[s1 [e |]] st2] |]; [| | discriminate].
    + inversion Hrun; subst. right. split; [reflexivity |].
      eexists. split; reflexivity.
    + unfold validated in Hrun. rewrite validateSession_run in Hrun.
      destruct (IsExpired s1 (Now c (env st2))).
      * inversion Hrun; subst.
        right. split; [reflexivity |]. eexists. split; reflexivity.
      * destruct (sessionValidator c s1 (env st2)) as [[] e'];
          inversion Hrun; subst.
        -- left. split; [discriminate | reflexivity].
        -- right. split; [reflexivity |]. eexists. split; reflexivity.
  - unfold getValidatedSession in Hrun. destruct st as [e tr].
    cbn [env] in Hload. revert Hrun. run_auto.
    intros Hrun; inversion Hrun; auto.
Qed.

Lemma getValidatedSession_terminates n fuel st :
  releasedWithin c n (snd (Load (store c) (env st))) = true ->
  (n <= fuel)%nat ->
  terminates c (getValidatedSession refreshPeriod fuel) st.
Proof.
  intros Hrel Hle. unfold getValidatedSession.
  apply terminates_bind; [apply total_call |].
  intros [ls le] st1 Hload. rewrite run_call in Hload.
  unfold perform in Hload. cbn [handle] in Hload.
  destruct (Load (store c) (env st)) as [x e1]. cbn [snd] in Hrel.
  inversion Hload; subst.
  destruct le; [destruct ls; apply total_ret |].
  destruct ls as [s0 |]; [| apply total_ret].
  apply terminates_bind;
    [apply refreshSessionIfNeeded_terminates with (n := n); trivial |].
  intros [s1 [e |]] st2 _; [apply total_ret |].
  apply total_bind; [apply validateSession_total |].
  intros [e |]; apply total_ret.
Qed.

(** The refresh step returns when the session is not due, and when it
    is due and the lock is seen free within the fuel. *)
Lemma refreshSessionIfNeeded_returns n fuel session st :
  (0 < refreshPeriod -> refreshPeriod <= Age session (Now c (env st)) ->
   releasedWithin c n (env st) = true) ->
  (n <= fuel)%nat ->
  terminates c (refreshSessionIfNeeded refreshPeriod fuel session) st.
Proof.
  intros Hrel Hle.
  destruct ((refreshPeriod <=? 0) ||
            (Age session (Now c (env st)) <? refreshPeriod)) eqn:Hskip.
  - unfold terminates, refreshSessionIfNeeded. destruct st as [e tr].
    cbn [env] in Hskip. run_auto. rewrite Hskip. run_auto. eauto.
  - apply orb_false_iff in Hskip. destruct Hskip as [Hpos Hage].
    apply Z.leb_gt in Hpos. apply Z.ltb_ge in Hage.
    apply refreshSessionIfNeeded_terminates with (n := n); auto.
Qed.

Lemma getValidatedSession_returns n fuel st :
  (forall s0 e1,
      Load (store c) (env st) = ((Some s0, None), e1) ->
      0 < refreshPeriod -> refreshPeriod <= Age s0 (Now c e1) ->
      releasedWithin c n e1 = true) ->
  (n <= fuel)%nat ->
  terminates c (getValidatedSession refreshPeriod fuel) st.
Proof.
  intros Hrel Hle. unfold getValidatedSession.
  apply terminates_bind; [apply total_call |].
  intros [ls le] st1 Hload. rewrite run_call in Hload.
  unfold perform in Hload. cbn [handle] in Hload.
  destruct (Load (store c) (env st)) as [x e1] eqn:Hanswer.
  inversion Hload; subst.
  destruct le; [destruct ls; apply total_ret |].
  destruct ls as [s0 |]; [| apply total_ret].
  apply terminates_bind;
    [apply refreshSessionIfNeeded_returns with (n := n); trivial;
     cbn [env]; now apply Hrel |].
  intros [s1 [e |]] st2 _; [apply total_ret |].
  apply total_bind; [apply validateSession_total |].
  intros [e |]; apply total_ret.
Qed.

(** C6, as the code has it.  The handler returns, having called the
    next handler exactly once, on every request but one: a request
    whose loaded session is due for a refresh returns only if one of
    its peeks, say the [n]-th at the latest, finds the lock free.
    Requests that do not get to the lock (a scope that holds a session
    already, an error or no session from the load, refresh disabled, a
    young session) need nothing of the lock.  When
    [getValidatedSession] returns an error that is not "no cookie",
    the handler logs it, calls Clear once, logs a failure of Clear
    without returning it, and attaches no session.  An error of the
    load is returned as it is; an error of the refresh or of the
    validation is never "no cookie". *)
Theorem loadSession_clears_and_passes_on
        (n fuel : nat) (scope : RequestScope) (st : St E) :
  (forall s0 e1,
      Session scope = None ->
      Load (store c) (env st) = ((Some s0, None), e1) ->
      0 < refreshPeriod -> refreshPeriod <= Age s0 (Now c e1) ->
      releasedWithin c n e1 = true) ->
  (n <= fuel)%nat ->
  exists scope' st',
    run c (loadSession refreshPeriod fuel (Some scope)) st =
    Some (Served scope', st') /\
    calls (@isNext) (trace st') = (calls (@isNext) (trace st) + 1)%nat /\
    (Session scope = None ->
     exists err st1,
       run c (getValidatedSession refreshPeriod fuel) st =
       Some ((Session scope', err), st1) /\
       (forall e,
           err = Some e -> errors_Is e ErrNoCookie = false ->
           Session scope' = None /\
           let clearErr := fst (Clear (store c) (env st1)) in
           trace st' =
           trace st1 ++
           [Call (Log LogError
                      "Error loading cookied session: %v, removing session"
                      [FErr e]) tt;
            Call StoreClear clearErr] ++
           match clearErr with
           | Some e' =>
               [Call (Log LogError "Error removing session: %v" [FErr e']) tt]
           | None => []
           end ++
           [Call (NextServeHTTP {| Session := None |}) tt]) /\
       (err = None \/
        (exists e, err = Some e /\ errors_Is e ErrNoCookie = true) ->
        trace st' =
        trace st1 ++ [Call (NextServeHTTP {| Session := Session scope' |}) tt]) /\
       (forall ls e0 e1,
           Load (store c) (env st) = ((ls, Some e0), e1) -> err = Some e0) /\
       (forall s0 e1,
           Load (store c) (env st) = ((Some s0, None), e1) ->
           forall e, err = Some e -> errors_Is e ErrNoCookie = false)).
Proof.
  intros Hlive Hfuel.
  destruct (Session scope) as [attached |] eqn:Hscope.
  - unfold loadSession. rewrite Hscope.
    destruct st as [e tr]. run_auto.
    eexists _, _. split; [reflexivity |]. split; [| discriminate].
    cbn [trace]. rewrite calls_app. cbn. lia.
  - destruct (getValidatedSession_returns n fuel st
                (fun s0 e1 => Hlive s0 e1 eq_refl) Hfuel)
      as ([session err] & st1 & Hgv).
    destruct (clearOnError_total err st1) as ([] & st2 & Hclear).
    rewrite (loadSession_run _ _ _ Hscope), Hgv, Hclear.
    eexists _, _. split; [reflexivity |]. split.
    + cbn [trace]. rewrite calls_app.
      rewrite (never_run c _ _ _ _ _ (clearOnError_never_next err) Hclear).
      rewrite (never_run c _ _ _ _ _
                         (getValidatedSession_never_next refreshPeriod fuel) Hgv).
      cbn. lia.
    + intros _. exists err, st1. cbn [Session].
      pose proof (getValidatedSession_cases _ _ _ _ _ Hgv) as Hcases.
      split; [reflexivity | split; [| split; [| split]]].
      * intros e -> His.
        assert (session = None) as ->.
        { destruct (Load (store c) (env st)) as [[[s0 |] [e0 |]] e1];
            try tauto.
          destruct Hcases as [[_ H] | [H _]]; [discriminate | exact H]. }
        split; [reflexivity |]. cbv zeta.
        destruct (Clear (store c) (env st1)) as [clearErr e2] eqn:Hclr.
        rewrite (clearOnError_clears _ _ _ _ His Hclr) in Hclear.
        inversion Hclear; subst. cbn [trace fst].
        destruct clearErr; rewrite <- !app_assoc; reflexivity.
      * intros [-> | (e & -> & His)]; unfold clearOnError in Hclear;
          try rewrite His in Hclear; cbn in Hclear;
          inversion Hclear; subst; reflexivity.
      * intros ls e0 e1 Hload. rewrite Hload in Hcases.
        destruct ls; tauto.
      * intros s0 e1 Hload e ->. rewrite Hload in Hcases.
        destruct Hcases as [[_ H] | [_ (e' & H & His)]]; [discriminate |].
        now inversion H; subst.
Qed.

End Sequential.

(** ** The lock discipline of the handler *)

(** Follow a program through its calls, answer by answer. *)
Ltac discipline :=
  cbn;
  repeat match goal with
    | |- _ /\ _ => split; [reflexivity |]
    | |- forall _ : unit, _ => intros []
    | |- forall _ : option _, _ => intros [? |]
    | |- forall _ : _ * _, _ => intros [? ?]
    | |- forall _ : bool, _ => intros []
    | |- forall _, _ => intro
    | |- context [match ?x with _ => _ end] => is_var x; destruct x
    | |- context [match ?x with _ => _ end] => destruct x
    | _ => progress cbn
    end;
  auto.

Section LockDiscipline.
Variable refreshPeriod : Duration.

Lemma keeps_ret {A} (a : A) : keeps (Ret a).
Proof. intros ph. reflexivity. Qed.

Lemma keeps_bind {A B} (p : Prog A) (f : A -> Prog B) :
  keeps p -> (forall a, keeps (f a)) -> keeps (bind p f).
Proof.
  intros Hp Hf ph. eapply wp_seq; [apply Hp |].
  intros a ph' ->. apply Hf.
Qed.

Lemma keeps_call {X} (op : Op X) :
  (forall ph, lockPermitted X op ph = true) ->
  (forall x ph, lockAdvance X op x ph = ph) ->
  keeps (call op).
Proof. intros Hperm Hadv ph. apply wp_call; auto. Qed.

Ltac keeps_tac :=
  repeat match goal with
    | |- forall _, keeps _ => intro; cbv beta
    | |- keeps (match ?x with _ => _ end) => destruct x
    | |- keeps (Ret _) => apply keeps_ret
    | |- keeps (call _) => apply keeps_call; reflexivity
    | |- keeps (bind _ _) => apply keeps_bind
    end.

Lemma peekLoop_keeps fuel : forall w, keeps (peekLoop fuel w).
Proof.
  induction fuel as [| fuel IH]; intros w; cbn [peekLoop]; [intros ph; exact I |].
  keeps_tac. apply IH.
Qed.

Lemma validateSession_keeps session : keeps (validateSession session).
Proof. unfold validateSession. keeps_tac. Qed.

Lemma updateSessionFromStore_keeps session :
  keeps (updateSessionFromStore session).
Proof. unfold updateSessionFromStore. keeps_tac. Qed.

Lemma clearOnError_keeps err : keeps (clearOnError err).
Proof. unfold clearOnError, logger_Errorf. keeps_tac. Qed.

Lemma waitForPossibleSessionLock_keeps fuel :
  keeps (waitForPossibleSessionLock fuel).
Proof.
  unfold waitForPossibleSessionLock.
  apply keeps_bind; [apply peekLoop_keeps |]. keeps_tac.
Qed.

(** The refresh claims the lock once, calls the refresher under it
    and releases the lock on every path. *)
Lemma refreshSession_discipline session :
  wp lockPermitted lockAdvance Idle (refreshSession session)
     (fun _ ph' => ph' = Done).
Proof.
  unfold refreshSession, refreshLocked, releaseDeferred, logger_Errorf,
    logger_PrintAuthf.
  discipline.
Qed.

Lemma refreshSessionIfNeeded_discipline fuel session :
  wp lockPermitted lockAdvance Idle
     (refreshSessionIfNeeded refreshPeriod fuel session)
     (fun _ ph' => holding ph' = false).
Proof.
  unfold refreshSessionIfNeeded.
  cbn [bind call wp]. split; [reflexivity |]. intros now. cbn [lockAdvance].
  destruct (_ || _); [reflexivity |].
  eapply wp_seq; [apply waitForPossibleSessionLock_keeps |].
  intros [w [e |]] ph ->; [reflexivity |].
  destruct w.
  - eapply wp_mono;
      [| apply (keeps_bind (logger_Printf "update session from store" [])
                           (fun _ => updateSessionFromStore session))].
    + now intros _ ph ->.
    + unfold logger_Printf. keeps_tac.
    + intro. apply updateSessionFromStore_keeps.
  - cbn [bind call wp]. split; [reflexivity |]. intros now'.
    unfold logger_Printf. cbn [bind call wp]. split; [reflexivity |].
    intros []. cbn [lockAdvance].
    eapply wp_seq; [apply refreshSession_discipline |].
    intros [s1 [e |]] ph ->; unfold logger_Errorf; discipline.
Qed.

Lemma getValidatedSession_discipline fuel :
  wp lockPermitted lockAdvance Idle (getValidatedSession refreshPeriod fuel)
     (fun _ ph' => holding ph' = false).
Proof.
  unfold getValidatedSession.
  cbn [bind call wp]. split; [reflexivity |].
  intros [[s0 |] [e |]]; cbn [lockAdvance]; try reflexivity.
  eapply wp_seq; [apply refreshSessionIfNeeded_discipline |].
  intros [s1 [e |]] ph Hph; [exact Hph |].
  eapply wp_seq; [apply validateSession_keeps |].
  intros [e |] ph' ->; exact Hph.
Qed.

(** The handler follows the lock discipline. *)
Lemma loadSession_conforms fuel scope :
  conforms Idle (loadSession refreshPeriod fuel scope).
Proof.
  unfold conforms, loadSession.
  destruct scope as [scope |]; [| reflexivity].
  destruct (Session scope); [discipline |].
  eapply wp_seq; [apply getValidatedSession_discipline |].
  intros [session err] ph Hph.
  eapply wp_seq; [apply clearOnError_keeps |].
  intros [] ph' ->. discipline.
Qed.

End LockDiscipline.

(** ** Requests over one store *)

Module ConcurrentFacts.
Import Concurrent.

Lemma upd_same {A} i (a : A) f : upd i a f i = a.
Proof. unfold upd. now rewrite Nat.eqb_refl. Qed.

Lemma upd_other {A} i j (a : A) f : j <> i -> upd i a f j = f j.
Proof. unfold upd. intros H. apply Nat.eqb_neq in H. now rewrite H. Qed.

Lemma refreshesOf_app i l1 l2 :
  refreshesOf i (l1 ++ l2) = (refreshesOf i l1 + refreshesOf i l2)%nat.
Proof. unfold refreshesOf. now rewrite filter_app, map_app, calls_app. Qed.

Lemma refreshesOf_record i j {X} (op : Op X) (x : X) :
  refreshesOf j (map (pair i) (record op x)) =
  if Nat.eqb i j && isRefresher op then 1%nat else 0%nat.
Proof.
  unfold refreshesOf.
  destruct op; cbn; trivial; destruct (Nat.eqb i j); reflexivity.
Qed.

Section Requests.
Variable refresh : SessionState -> SessionState * bool * option error.
Variable valid : SessionState -> bool.

(** A call that is none of the lock's leaves the lock, the phase
    and the count of refreshes as they are. *)
Lemma plain_handle i {X} (op : Op X) e :
  plain op = true ->
  lockRecord (snd (handle (collaboratorsOf refresh valid i) op e)) = lockRecord e.
Proof.
  destruct op; cbn; try discriminate; trivial.
  unfold load. destruct (stored e); reflexivity.
Qed.

Lemma plain_advance {X} (op : Op X) x ph :
  plain op = true -> lockAdvance X op x ph = ph.
Proof. destruct op; cbn; try discriminate; trivial. Qed.

Lemma plain_isRefresher {X} (op : Op X) :
  plain op = true -> isRefresher op = false.
Proof. destruct op; cbn; try discriminate; trivial. Qed.

Lemma step_invariant i p :
  invariant p ->
  lockFresh (world p) = true ->
  invariant (step refresh valid i p).
Proof.
  intros Hinv Hfresh. unfold step.
  destruct (requests p i) as [a | | X op k] eqn:Hreq; trivial.
  destruct Hinv as (Hconf & Hlock & Hcount).
  pose proof (Hconf i) as Hi. unfold conforms in Hi. rewrite Hreq in Hi.
  cbn [wp] in Hi. destruct Hi as [Hperm Hk].
  destruct (handle (collaboratorsOf refresh valid i) op (world p))
    as [x e'] eqn:Hhandle.
  assert (Hconf' : forall j,
             conforms (upd i (lockAdvance X op x (phases p i)) (phases p) j)
                      (upd i (k x) (requests p) j)).
  { intros j. destruct (Nat.eq_dec j i) as [-> | Hne].
    - rewrite !upd_same. apply Hk.
    - rewrite !upd_other by exact Hne. apply Hconf. }
  assert (Hcount_other : forall j, j <> i ->
             refreshesOf j (log p ++ map (pair i) (record op x)) =
             refreshesOf j (log p)).
  { intros j Hne. rewrite refreshesOf_app, refreshesOf_record.
    apply Nat.eqb_neq in Hne. rewrite Nat.eqb_sym, Hne. cbn. lia. }
  destruct (plain op) eqn:Hplain.
  - (* a call that is none of the lock's *)
    pose proof (plain_handle i op (world p) Hplain) as Hrec.
    rewrite Hhandle in Hrec. cbn [snd] in Hrec.
    pose proof (plain_advance op x (phases p i) Hplain) as Hadv.
    split; [exact Hconf' | split]; cbn [phases world log requests].
    + intros j. rewrite Hrec. destruct (Nat.eq_dec j i) as [-> | Hne].
      * rewrite upd_same, Hadv. apply Hlock.
      * rewrite upd_other by exact Hne. apply Hlock.
    + intros j. destruct (Nat.eq_dec j i) as [-> | Hne].
      * rewrite upd_same, Hadv, refreshesOf_app, refreshesOf_record.
        rewrite (plain_isRefresher op Hplain), andb_false_r, Nat.add_0_r.
        apply Hcount.
      * rewrite upd_other, Hcount_other by exact Hne. apply Hcount.
  - destruct op; try discriminate; cbn in Hperm, Hhandle.
    + (* ObtainLock *)
      destruct (phases p i) eqn:Hph; try discriminate.
      assert (Hnone : held (world p) = false -> lockRecord (world p) = None).
      { unfold held, lockFresh in *.
        destruct (lockRecord (world p)) as [[owner expiry] |]; [| trivial].
        intros H. congruence. }
      unfold obtain in Hhandle.
      destruct (held (world p)) eqn:Hheld; inversion Hhandle; subst x e'.
      * split; [exact Hconf' | split]; cbn [phases world log requests].
        -- intros j. destruct (Nat.eq_dec j i) as [-> | Hne].
           ++ rewrite upd_same. cbn. rewrite <- Hlock, Hph. cbn. tauto.
           ++ rewrite upd_other by exact Hne. apply Hlock.
        -- intros j. destruct (Nat.eq_dec j i) as [-> | Hne].
           ++ rewrite upd_same, refreshesOf_app, refreshesOf_record.
              cbn [isRefresher]. rewrite andb_false_r, Nat.add_0_r.
              destruct (Hcount i) as (Hle & Hz & _).
              cbn. repeat split; auto; congruence.
           ++ rewrite upd_other, Hcount_other by exact Hne. apply Hcount.
      * specialize (Hnone eq_refl).
        split; [exact Hconf' | split]; cbn [phases world log requests].
        -- intros j. cbn [lockRecord]. destruct (Nat.eq_dec j i) as [-> | Hne].
           ++ rewrite upd_same. cbn. split; eauto.
           ++ rewrite upd_other by exact Hne. rewrite Hlock, Hnone.
              split; intros [t H]; [discriminate | congruence].
        -- intros j. destruct (Nat.eq_dec j i) as [-> | Hne].
           ++ rewrite upd_same, refreshesOf_app, refreshesOf_record.
              cbn [isRefresher]. rewrite andb_false_r, Nat.add_0_r.
              destruct (Hcount i) as (Hle & Hz & _).
              rewrite Hph in Hz. cbn in *.
              repeat split; auto; try discriminate.
              intros _. apply Hz; [reflexivity | discriminate].
           ++ rewrite upd_other, Hcount_other by exact Hne. apply Hcount.
    + (* ReleaseLock *)
      destruct (proj1 (Hlock i) Hperm) as [expiry Hrec].
      unfold release in Hhandle. rewrite Hrec, Nat.eqb_refl in Hhandle.
      inversion Hhandle; subst x e'.
      split; [exact Hconf' | split]; cbn [phases world log requests].
      * intros j. cbn [lockRecord]. destruct (Nat.eq_dec j i) as [-> | Hne].
        -- rewrite upd_same. cbn. split; [discriminate |].
           intros [t H]; discriminate.
        -- rewrite upd_other by exact Hne. rewrite Hlock, Hrec.
           split; intros [t H]; [congruence | discriminate].
      * intros j. destruct (Nat.eq_dec j i) as [-> | Hne].
        -- rewrite upd_same, refreshesOf_app, refreshesOf_record.
           cbn [isRefresher]. rewrite andb_false_r, Nat.add_0_r.
           destruct (Hcount i) as (Hle & _). cbn.
           repeat split; auto; congruence.
        -- rewrite upd_other, Hcount_other by exact Hne. apply Hcount.
    + (* the refresher *)
      destruct (phases p i) eqn:Hph; try discriminate.
      inversion Hhandle; subst x e'.
      split; [exact Hconf' | split]; cbn [phases world log requests].
      * intros j. destruct (Nat.eq_dec j i) as [-> | Hne].
        -- rewrite upd_same. cbn. rewrite <- Hlock, Hph. reflexivity.
        -- rewrite upd_other by exact Hne. apply Hlock.
      * intros j. destruct (Nat.eq_dec j i) as [-> | Hne].
        -- rewrite upd_same, refreshesOf_app, refreshesOf_record.
           rewrite Nat.eqb_refl. cbn [isRefresher andb].
           destruct (Hcount i) as (_ & _ & Hz). rewrite (Hz Hph). cbn.
           repeat split; auto; discriminate.
        -- rewrite upd_other, Hcount_other by exact Hne. apply Hcount.
Qed.

Lemma exec_invariant schedule : forall p,
  invariant p ->
  withinTTL refresh valid schedule p = true ->
  invariant (exec refresh valid schedule p).
Proof.
  induction schedule as [| i rest IH]; intros p Hinv Httl; cbn in *;
    [exact Hinv |].
  apply andb_true_iff in Httl. destruct Httl as [Hfresh Hrest].
  apply IH; [now apply step_invariant | exact Hrest].
Qed.

End Requests.

Lemma arrivals_invariant refreshPeriod fuel scope e :
  lockRecord e = None ->
  invariant (arrivals refreshPeriod fuel scope e).
Proof.
  intros Hfree. split; [| split]; cbn.
  - intros i. apply loadSession_conforms.
  - intros i. rewrite Hfree. split; [discriminate | intros [t H]; discriminate].
  - intros i. repeat split; auto.
Qed.

(** C4, as the code has it.  For any number of requests that arrive
    while nobody holds the lock, and any schedule during which no
    lock outlives its lifetime: at every instant at most one request
    holds the lock, and it is the one the store records as holder; a
    request that is about to call the refresher holds the lock; and
    each request calls the refresher at most once.  Nothing bounds
    the number of requests that call it one after the other. *)
Theorem refresher_runs_under_the_lock
        (refresh : SessionState -> SessionState * bool * option error)
        (valid : SessionState -> bool)
        (refreshPeriod : Duration) (fuel : nat -> nat)
        (scope : nat -> option RequestScope) (e : shared)
        (schedule : list nat) :
  lockRecord e = None ->
  withinTTL refresh valid schedule (arrivals refreshPeriod fuel scope e) = true ->
  let p := exec refresh valid schedule (arrivals refreshPeriod fuel scope e) in
  (forall i j,
      holding (phases p i) = true -> holding (phases p j) = true -> i = j) /\
  (forall i,
      holding (phases p i) = true <->
      exists expiry, lockRecord (world p) = Some (i, expiry)) /\
  (forall i X (op : Op X) k,
      requests p i = Vis op k -> isRefresher op = true ->
      exists expiry, lockRecord (world p) = Some (i, expiry)) /\
  (forall i, (refreshesOf i (log p) <= 1)%nat).
Proof.
  intros Hfree Httl p.
  assert (Hinv : invariant p).
  { apply exec_invariant; [| exact Httl]. now apply arrivals_invariant. }
  destruct Hinv as (Hconf & Hlock & Hcount).
  split; [| split; [exact Hlock | split]].
  - intros i j Hi Hj.
    apply Hlock in Hi. apply Hlock in Hj.
    destruct Hi as [ti Hi]. destruct Hj as [tj Hj]. congruence.
  - intros i X op k Hreq Hop. apply Hlock.
    pose proof (Hconf i) as Hi. unfold conforms in Hi. rewrite Hreq in Hi.
    destruct Hi as [Hperm _].
    destruct op; try discriminate. cbn in Hperm.
    destruct (phases p i); try discriminate. reflexivity.
  - intros i. apply Hcount.
Qed.

End ConcurrentFacts.

(** ** The handler on the scripted environment *)

Module MockFacts.
Import Mock.

(** C1 at its failing input.  The session is two hours old with a
    refresh period of one hour, it has not expired and the validator
    accepts it; the lock is obtained and the refresher returns an
    error that is not the sentinel.  The handler does not validate
    the session: it clears the store and attaches no session. *)
Theorem failed_refresh_discards_session :
  let c := collaborators refreshFails accept in
  let r := run c (loadSession Hour 1 (Some noScope)) (start calm) in
  IsExpired alice (clock calm) = false /\
  accept alice = true /\
  In (Call (Refresher alice) (refreshFails alice)) (finalTrace r) /\
  result r = Some (Served {| Session := None |}) /\
  calls (@isValidator) (finalTrace r) = 0%nat /\
  calls (@isClear) (finalTrace r) = 1%nat.
Proof.
  cbv zeta. repeat split; try reflexivity.
  vm_compute. do 4 right. left. reflexivity.
Qed.

(** C3 at its failing input.  The refresher rotates the tokens and
    answers "refreshed", the store fails to save: the handler does
    not validate the refreshed session, it clears the store and
    attaches no session. *)
Theorem failed_save_discards_session :
  let c := collaborators refreshRotates accept in
  let r := run c (loadSession Hour 1 (Some noScope)) (start saveFails) in
  IsExpired alice' (clock saveFails) = false /\
  accept alice' = true /\
  In (Call (StoreSave (CreatedAtNow alice' (clock saveFails)))
           (Some (errors_New "store unavailable"))) (finalTrace r) /\
  result r = Some (Served {| Session := None |}) /\
  calls (@isValidator) (finalTrace r) = 0%nat /\
  calls (@isClear) (finalTrace r) = 1%nat.
Proof.
  cbv zeta. repeat split; try reflexivity.
  vm_compute. do 5 right. left. reflexivity.
Qed.

(** C2 as stated fails: the refresher answers with the "not
    implemented" sentinel and Save is called. *)
Lemma not_implemented_refresh_calls_save :
  let c := collaborators refreshNotImplemented accept in
  let r := run c (refreshSession alice) (start calm) in
  snd (refreshNotImplemented alice) = Some (Sentinel ErrNotImplemented) /\
  calls (@isSave) (finalTrace r) <> 0%nat.
Proof. cbv zeta. split; [reflexivity | vm_compute; discriminate]. Qed.

Lemma refreshSession_not_implemented_saves_witness :
  let c := collaborators refreshNotImplemented accept in
  exists st',
    run c (refreshSession alice) (start calm) =
    Some ((CreatedAtNow alice (2 * Hour), None), st') /\
    calls (@isSave) (trace st') = 1%nat.
Proof.
  cbv zeta.
  destruct (refreshSession_not_implemented_saves
              (collaborators refreshNotImplemented accept)
              alice alice false (Sentinel ErrNotImplemented) None None
              (start calm) calm calm calm calm
              eq_refl eq_refl eq_refl eq_refl eq_refl)
    as (st' & Hrun & _ & Hsave & _).
  exists st'. split; [exact Hrun | exact Hsave].
Defined.

(** C8 as stated fails: the lock is free when peeked at and denied
    when claimed, the store holds another record by then; the request
    does not sleep, peek or load again, and the session it attaches
    is the one it loaded first. *)
Lemma denied_request_keeps_its_session :
  let c := collaborators refreshRotates accept in
  let r := run c (loadSession Hour 1 (Some noScope)) (start denied) in
  In (Call (ObtainLock SessionLockExpireTime)
           (Some (errors_New "lock already held"))) (finalTrace r) /\
  calls (@isSleep) (finalTrace r) = 0%nat /\
  calls (@isPeek) (finalTrace r) = 1%nat /\
  calls (@isLoad) (finalTrace r) = 1%nat /\
  result r = Some (Served {| Session := Some alice |}) /\
  result r <> Some (Served {| Session := Some alice' |}).
Proof.
  cbv zeta. repeat split; try reflexivity.
  - vm_compute. do 3 right. left. reflexivity.
  - vm_compute. discriminate.
Qed.

Lemma obtain_denied_skips_refresh_witness :
  let c := collaborators refreshRotates accept in
  result (run c (getValidatedSession Hour 1) (start denied)) =
  Some (Some alice, None) /\
  calls (@isLoad)
        (finalTrace (run c (getValidatedSession Hour 1) (start denied))) = 1%nat.
Proof.
  cbv zeta.
  rewrite (obtain_denied_skips_refresh
             (collaborators refreshRotates accept) Hour 0 alice
             (errors_New "lock already held") (start denied)
             {| clock := 2 * Hour; loads := [(Some alice', None)]; peeks := [];
                obtain_err := Some (errors_New "lock already held");
                release_err := None; save_err := None; clear_err := None |}
             _ _ eq_refl ltac:(reflexivity) ltac:(discriminate)
             eq_refl eq_refl).
  split; reflexivity.
Defined.

(** C9 as stated fails: the session has not expired and the
    validator accepts it, the lock is not held, but the store returns
    an error along with the answer to PeekLock: the handler clears
    the store and attaches no session. *)
Lemma peek_error_discards_session :
  let c := collaborators refreshRotates accept in
  let r := run c (loadSession Hour 1 (Some noScope)) (start peekFails) in
  IsExpired alice (clock peekFails) = false /\
  accept alice = true /\
  In (Call PeekLock (false, Some (errors_New "connection refused")))
     (finalTrace r) /\
  result r = Some (Served {| Session := None |}) /\
  calls (@isClear) (finalTrace r) = 1%nat.
Proof.
  cbv zeta. repeat split; try reflexivity.
  vm_compute. right. left. reflexivity.
Qed.

Lemma lock_errors_outcome_witness :
  let c := collaborators refreshRotates accept in
  (exists st',
      run c (getValidatedSession Hour 1) (start denied) =
      validated c alice st' /\
      calls (@isSleep) (trace st') = 0%nat) /\
  result (run c (refreshSession alice) (start releaseFails)) =
  Some (CreatedAtNow alice' (2 * Hour), None) /\
  (exists st',
      run c (loadSession Hour 1 (Some noScope)) (start peekFails) =
      Some (Served {| Session := None |}, st') /\
      calls (@isClear) (trace st') = 1%nat) /\
  (exists st',
      run c (loadSession Hour 2 (Some noScope)) (start Scenes.latePeekFails) =
      Some (Served {| Session := None |}, st') /\
      calls (@isClear) (trace st') = 1%nat /\
      calls (@isValidator) (trace st') = 0%nat /\
      calls (@isLoad) (trace st') = 1%nat).
Proof.
  cbv zeta. split; [| split; [| split]].
  - destruct (lock_errors_outcome
                (collaborators refreshRotates accept) Hour 0 alice
                (start denied) _ eq_refl ltac:(reflexivity)
                ltac:(discriminate)) as (Hobtain & _).
    destruct (Hobtain (errors_New "lock already held") _ _ eq_refl eq_refl)
      as (st' & _ & Hrun & _ & Hsleep & _).
    exists st'. split; [exact Hrun | exact Hsleep].
  - destruct (lock_errors_outcome
                (collaborators refreshRotates accept) Hour 0 alice
                (start calm) _ eq_refl ltac:(reflexivity)
                ltac:(discriminate)) as (_ & Hrelease & _).
    erewrite (Hrelease (start releaseFails) releaseFails);
      reflexivity.
  - destruct (lock_errors_outcome
                (collaborators refreshRotates accept) Hour 0 alice
                (start peekFails) _ eq_refl ltac:(reflexivity)
                ltac:(discriminate)) as (_ & _ & Hpeek & _).
    destruct (Hpeek 0%nat _ noScope (errors_New "connection refused") _ None _
                    eq_refl eq_refl eq_refl eq_refl)
      as (_ & st' & Hrun & Hclear & _).
    exists st'. split; [exact Hrun | exact Hclear].
  - destruct (lock_errors_outcome
                (collaborators refreshRotates accept) Hour 0 alice
                (start Scenes.latePeekFails) _ eq_refl ltac:(reflexivity)
                ltac:(discriminate)) as (_ & _ & Hpeek & _).
    destruct (Hpeek 1%nat _ noScope (errors_New "connection refused") _ None _
                    eq_refl eq_refl eq_refl eq_refl)
      as (_ & st' & Hrun & Hclear & Hvalid & Hloads & _).
    exists st'. repeat split; assumption.
Defined.

Lemma waiter_adopts_stored_session_witness :
  let c := collaborators refreshRotates accept in
  exists errs : list (option error),
    List.length errs = 2%nat /\
    result (run c (getValidatedSession Hour 3) (start contended)) =
    Some (Some alice', None).
Proof.
  cbv zeta.
  destruct (waiter_adopts_stored_session
              (collaborators refreshRotates accept) Hour 3 1 alice alice'
              (start contended) _ _ _ _
              eq_refl ltac:(reflexivity) ltac:(discriminate)
              eq_refl eq_refl eq_refl ltac:(lia))
    as (errs & Hlen & Hrun & _).
  exists errs. split; [exact Hlen |]. rewrite Hrun. reflexivity.
Defined.

Lemma reload_absent_is_fatal_witness :
  let c := collaborators refreshRotates accept in
  result (run c (loadSession Hour 2 (Some noScope)) (start vanished)) =
  Some (Served {| Session := None |}) /\
  calls (@isClear)
        (finalTrace (run c (loadSession Hour 2 (Some noScope)) (start vanished))) =
  1%nat /\
  finalTrace (run c (loadSession Hour 2 (Some noScope)) (start empty)) =
  [Call StoreLoad (None, None); Call (NextServeHTTP {| Session := None |}) tt].
Proof.
  cbv zeta.
  destruct (reload_absent_is_fatal
              (collaborators refreshRotates accept) Hour 2 0 noScope alice
              (start vanished) _ (start empty) _ _ _ _ _
              (Some (errors_New "store unavailable"))
              eq_refl eq_refl ltac:(reflexivity) ltac:(discriminate)
              eq_refl eq_refl eq_refl eq_refl ltac:(lia) eq_refl)
    as (_ & Hfatal & Habsent).
  rewrite Hfatal, Habsent. repeat split.
Defined.

Lemma loadSession_clears_and_passes_on_witness :
  (exists scope' st',
      run (collaborators refreshRotates accept)
          (loadSession Hour 2 (Some noScope)) (start vanished) =
      Some (Served scope', st') /\
      calls (@isNext) (trace st') = 1%nat /\
      Session scope' = None /\
      In (Call StoreClear (Some (errors_New "store unavailable"))) (trace st')) /\
  (exists scope' st',
      run Stuck.collaborators
          (loadSession Hour 0 (Some noScope)) (start Scenes.loadFails) =
      Some (Served scope', st') /\
      calls (@isNext) (trace st') = 1%nat /\
      Session scope' = None /\
      In (Call StoreClear None) (trace st')).
Proof.
  split.
  - destruct (loadSession_clears_and_passes_on
                (collaborators refreshRotates accept) Hour 2 2 noScope
                (start vanished))
      as (scope' & st' & Hrun & Hnext & Hrest).
    + intros s0 e1 _ Hload _ _. cbn in Hload. inversion Hload. reflexivity.
    + lia.
    + destruct (Hrest eq_refl) as (err & st1 & Hgv & Hfatal & _).
      vm_compute in Hgv. injection Hgv as Hsession Herr Hst1.
      destruct (Hfatal _ (eq_sym Herr) eq_refl) as (Hnone & Htrace).
      subst st1. cbn in Htrace.
      exists scope', st'. repeat split; trivial.
      rewrite Htrace. cbn [In]. repeat (first [left; reflexivity | right]).
  - destruct (loadSession_clears_and_passes_on
                Stuck.collaborators Hour 0 0 noScope (start Scenes.loadFails))
      as (scope' & st' & Hrun & Hnext & Hrest).
    + intros s0 e1 _ Hload. cbn in Hload. discriminate Hload.
    + lia.
    + destruct (Hrest eq_refl) as (err & st1 & Hgv & Hfatal & _).
      vm_compute in Hgv. injection Hgv as Hsession Herr Hst1.
      destruct (Hfatal _ (eq_sym Herr) eq_refl) as (Hnone & Htrace).
      subst st1. cbn in Htrace.
      exists scope', st'. repeat split; trivial.
      rewrite Htrace. cbn [In]. repeat (first [left; reflexivity | right]).
Defined.

End MockFacts.

(** ** Two requests, one after the other *)

Module RaceFacts.
Import Concurrent.

(** C4 as stated fails.  Two requests load the same session and both
    find it due.  Request 0 obtains the lock, refreshes, saves and
    releases; request 1 peeks only then, finds the lock free, obtains
    it and calls the refresher a second time.  No lock outlived its
    lifetime on the way. *)
Lemma two_requests_refresh_twice :
  let p := exec Mock.refreshRotates Mock.accept oneAfterTheOther twoRequests in
  withinTTL Mock.refreshRotates Mock.accept oneAfterTheOther twoRequests = true /\
  firstn 2 (log p) =
  [(0%nat, Call StoreLoad (Some Mock.alice, None));
   (1%nat, Call StoreLoad (Some Mock.alice, None))] /\
  Mock.Hour <= Age Mock.alice (clock (world twoRequests)) /\
  requests p 0%nat = Ret (Served {| Session := Some (CreatedAtNow Mock.alice' (2 * Mock.Hour)) |}) /\
  requests p 1%nat = Ret (Served {| Session := Some (CreatedAtNow Mock.alice' (2 * Mock.Hour)) |}) /\
  refreshesOf 0 (log p) = 1%nat /\
  refreshesOf 1 (log p) = 1%nat /\
  refreshes (log p) <> 1%nat.
Proof.
  cbv zeta. repeat split; try reflexivity; vm_compute; discriminate.
Qed.

Lemma refresher_runs_under_the_lock_witness :
  let p := exec Mock.refreshRotates Mock.accept oneAfterTheOther twoRequests in
  (forall i j,
      holding (phases p i) = true -> holding (phases p j) = true -> i = j) /\
  (forall i, (refreshesOf i (log p) <= 1)%nat).
Proof.
  cbv zeta.
  destruct (ConcurrentFacts.refresher_runs_under_the_lock
              Mock.refreshRotates Mock.accept Mock.Hour
              (fun _ => 4%nat) (fun _ => Some Mock.noScope)
              (mkShared (2 * Mock.Hour) (Some Mock.alice) None)
              oneAfterTheOther eq_refl eq_refl)
    as (Hone & _ & _ & Hcount).
  split; [exact Hone | exact Hcount].
Defined.

End RaceFacts.

(** * Further properties of the handler *)

(** Run a program through the calls whose answers are at hand. *)
Ltac run_all :=
  repeat (run_simpl; rewrite ?app_nil_r;
          try match goal with
            | H : ?lhs = (_, _) |- context [?lhs] => rewrite H
            end).

Ltac same_trace :=
  cbn [trace env]; rewrite <- ?app_assoc; cbn [app]; reflexivity.

(** ** From a discipline to the traces of the runs *)

Section Traces.
Context {E : Type}.
Variable c : Collaborators E.

(** The trace of a run goes on from the trace it started with. *)
Lemma run_extends {A} (p : Prog A) : forall (st : St E) a st',
  run c p st = Some (a, st') ->
  exists evs, trace st' = trace st ++ evs.
Proof.
  induction p as [a0 | | X op k IH]; cbn [run]; intros st a st' Hrun.
  - inversion Hrun; subst. exists []. now rewrite app_nil_r.
  - discriminate.
  - unfold perform in Hrun. destruct (handle c op (env st)) as [x e'].
    apply IH in Hrun. destruct Hrun as [evs Hevs]. cbn [trace] in Hevs.
    exists (record op x ++ evs). now rewrite Hevs, app_assoc.
Qed.

(** What a discipline keeps true of the calls made so far holds of the
    calls of every run of a program that follows the discipline. *)
Lemma wp_run_events {S : Type}
      (permitted : forall X, Op X -> S -> bool)
      (advance : forall X, Op X -> X -> S -> S)
      (I : S -> list Event -> Prop) :
  (forall X (op : Op X) x s evs,
      I s evs -> permitted X op s = true ->
      I (advance X op x s) (evs ++ record op x)) ->
  forall {A} (p : Prog A) (Q : A -> S -> Prop) s evs0 st a st',
    I s evs0 ->
    wp permitted advance s p Q ->
    run c p st = Some (a, st') ->
    exists s' evs,
      trace st' = trace st ++ evs /\ I s' (evs0 ++ evs) /\ Q a s'.
Proof.
  intros Hstep A p Q.
  induction p as [a0 | | X op k IH]; cbn [run wp];
    intros s evs0 st a st' HI Hwp Hrun.
  - inversion Hrun; subst. exists s, []. now rewrite !app_nil_r.
  - discriminate.
  - destruct Hwp as [Hperm Hk].
    unfold perform in Hrun. destruct (handle c op (env st)) as [x e'].
    destruct (IH x _ _ _ _ _ (Hstep _ op x _ _ HI Hperm) (Hk x) Hrun)
      as (s' & evs & Htr & HI' & HQ).
    cbn [trace] in Htr.
    exists s', (record op x ++ evs).
    rewrite Htr, <- !app_assoc. rewrite <- app_assoc in HI'. auto.
Qed.

End Traces.

(** ** Disciplines the handler follows *)

(** Follow a program call by call; the wait loop is stepped over with
    the lemma [loop]. *)
Ltac drive loop :=
  cbn;
  repeat match goal with
    | |- _ /\ _ => split; [reflexivity |]
    | |- wp _ _ _ (bind (peekLoop _ _) _) _ =>
        eapply wp_seq; [apply loop; repeat split; reflexivity |];
        intros [? ?] ? ?; subst
    | |- wp _ _ _ (bind (bind _ _) _) _ => apply wp_bind
    | |- forall _ : unit, _ => intros []
    | |- forall _ : option _, _ => intros [? |]
    | |- forall _ : _ * _, _ => intros [? ?]
    | |- forall _ : bool, _ => intros []
    | |- forall _, _ => intro
    | |- context [match ?x with _ => _ end] => is_var x; destruct x
    | |- context [match ?x with _ => _ end] => destruct x
    | _ => progress cbn
    end;
  auto.

Ltac unfold_handler :=
  unfold loadSession, getValidatedSession, clearOnError,
    refreshSessionIfNeeded, waitForPossibleSessionLock,
    updateSessionFromStore, refreshSession, refreshLocked, releaseDeferred,
    validateSession, logger_Printf, logger_Errorf, logger_PrintAuthf.

Section Disciplines.
Variable refreshPeriod : Duration.

(** The wait loop leaves alone a discipline that lets it peek and
    sleep. *)
Lemma peekLoop_frame {S : Type}
      (permitted : forall X, Op X -> S -> bool)
      (advance : forall X, Op X -> X -> S -> S) (s : S) :
  (permitted _ PeekLock s = true /\
   permitted _ (Sleep SessionLockPeekDelay) s = true /\
   (forall x, advance _ PeekLock x s = s) /\
   (forall x, advance _ (Sleep SessionLockPeekDelay) x s = s)) ->
  forall fuel w,
    wp permitted advance s (peekLoop fuel w) (fun _ s' => s' = s).
Proof.
  intros (Hpeek & Hsleep & Hpeek' & Hsleep').
  induction fuel as [| fuel IH]; intros w; cbn [peekLoop]; [exact I |].
  cbn [bind call wp]. split; [exact Hpeek |].
  intros [[] err]; rewrite Hpeek'; cbn [bind wp]; [| reflexivity].
  split; [exact Hsleep |]. intros []. rewrite Hsleep'. apply IH.
Qed.

(** The handler follows the protocol of the critical section. *)
Lemma loadSession_critical fuel scope :
  wp critPermitted lockAdvance Idle (loadSession refreshPeriod fuel scope)
     (fun _ ph => holding ph = false).
Proof.
  unfold_handler.
  drive (peekLoop_frame critPermitted lockAdvance Idle).
Qed.

End Disciplines.

(** ** What every run of the handler keeps to *)

Lemma count_app test (tr1 tr2 : list Event) :
  count test (tr1 ++ tr2) = (count test tr1 + count test tr2)%nat.
Proof. unfold count. now rewrite filter_app, length_app. Qed.



Section EveryRun.
Context {E : Type}.
Variable c : Collaborators E.
Variable refreshPeriod : Duration.


(** X7.  In a run of the handler, ObtainLock is called at most once,
    ReleaseLock exactly as often as the lock was granted, the refresher
    at most once and only if the lock was granted, and Save only if the
    refresher was called. *)
Theorem handler_balances_the_lock
        (fuel : nat) (scope : option RequestScope) (st st' : St E)
        (out : Outcome) :
  run c (loadSession refreshPeriod fuel scope) st = Some (out, st') ->
  exists evs,
    trace st' = trace st ++ evs /\
    (calls (@isObtain) evs <= 1)%nat /\
    calls (@isRelease) evs = count granted evs /\
    (calls (@isRefresher) evs <= count granted evs)%nat /\
    (calls (@isSave) evs = 0%nat \/ calls (@isRefresher) evs = 1%nat).
Proof.
  intros Hrun.
  pose (I := fun (ph : phase) (evs : list Event) =>
               let ob := calls (@isObtain) evs in
               let g := count granted evs in
               let f := calls (@isRefresher) evs in
               let r := calls (@isRelease) evs in
               let sv := calls (@isSave) evs in
               match ph with
               | Idle => ob = 0 /\ g = 0 /\ f = 0 /\ r = 0 /\ sv = 0
               | Holding => ob = 1 /\ g = 1 /\ f = 0 /\ r = 0 /\ sv = 0
               | Refreshed => ob = 1 /\ g = 1 /\ f = 1 /\ r = 0
               | Done => ob = 1 /\ (g <= 1) /\ (f <= g) /\ r = g /\
                         (sv = 0 \/ f = 1)
               end%nat).
  destruct (wp_run_events c critPermitted lockAdvance I)
    with (p := loadSession refreshPeriod fuel scope)
         (Q := fun (_ : Outcome) ph => holding ph = false)
         (s := Idle) (evs0 := @nil Event) (st := st) (a := out) (st' := st')
    as (ph & evs & Htr & HI & Hfree); auto.
  - intros X op x ph evs HI Hperm. unfold I in *.
    rewrite !calls_app, !count_app.
    destruct op; destruct ph; cbn in Hperm; try discriminate;
      cbn; try (destruct x; cbn); lia.
  - cbn. repeat split; reflexivity.
  - apply loadSession_critical.
  - exists evs. cbn [app] in HI. unfold I in HI.
    destruct ph; try discriminate; cbn zeta in HI; split; trivial; lia.
Qed.

End EveryRun.

(** ** Budgets *)

Section Budgets.
Variable refreshPeriod : Duration.

Lemma loadSession_loads fuel scope :
  wp (budgetPermitted (@isLoad)) (budgetAdvance (@isLoad)) 2%nat
     (loadSession refreshPeriod fuel scope) (fun _ _ => True).
Proof.
  unfold_handler.
  drive (peekLoop_frame (budgetPermitted (@isLoad)) (budgetAdvance (@isLoad))
                        1%nat).
Qed.

Lemma loadSession_saves fuel scope :
  wp (budgetPermitted (@isSave)) (budgetAdvance (@isSave)) 1%nat
     (loadSession refreshPeriod fuel scope) (fun _ _ => True).
Proof.
  unfold_handler.
  drive (peekLoop_frame (budgetPermitted (@isSave)) (budgetAdvance (@isSave))
                        1%nat).
Qed.

Lemma loadSession_clears fuel scope :
  wp (budgetPermitted (@isClear)) (budgetAdvance (@isClear)) 1%nat
     (loadSession refreshPeriod fuel scope) (fun _ _ => True).
Proof.
  unfold_handler.
  drive (peekLoop_frame (budgetPermitted (@isClear)) (budgetAdvance (@isClear))
                        1%nat).
Qed.

Lemma loadSession_validates fuel scope :
  wp (budgetPermitted (@isValidator)) (budgetAdvance (@isValidator)) 1%nat
     (loadSession refreshPeriod fuel scope) (fun _ _ => True).
Proof.
  unfold_handler.
  drive (peekLoop_frame (budgetPermitted (@isValidator))
                        (budgetAdvance (@isValidator)) 1%nat).
Qed.

End Budgets.

Section WithinBudget.
Context {E : Type}.
Variable c : Collaborators E.
Variable refreshPeriod : Duration.

(** A program within a budget of [n] calls of a kind makes at most [n]
    of them. *)
Lemma budget_run (kind : forall X, Op X -> bool) (n : nat)
      {A} (p : Prog A) (st st' : St E) (a : A) :
  wp (budgetPermitted kind) (budgetAdvance kind) n p (fun _ _ => True) ->
  run c p st = Some (a, st') ->
  (calls kind (trace st') <= calls kind (trace st) + n)%nat.
Proof.
  intros Hwp Hrun.
  destruct (wp_run_events c (budgetPermitted kind) (budgetAdvance kind)
              (fun m evs => (calls kind evs + m <= n)%nat))
    with (p := p) (Q := fun (_ : A) (_ : nat) => True)
         (s := n) (evs0 := @nil Event) (st := st) (a := a) (st' := st')
    as (m & evs & Htr & Hle & _); auto.
  - intros X op x m evs Hle Hperm.
    unfold budgetPermitted, budgetAdvance in *. rewrite calls_app.
    destruct (kind X op) eqn:Hkind.
    + apply Nat.ltb_lt in Hperm.
      assert (calls kind (record op x) <= 1)%nat.
      { destruct op; unfold calls; cbn; try rewrite Hkind; cbn; lia. }
      lia.
    + rewrite (calls_record_other kind op x Hkind). lia.
  - rewrite Htr, calls_app. cbn [app] in Hle. lia.
Qed.

(** X8.  A run of the handler calls Load at most twice, and Save, Clear
    and the validator at most once each. *)
Theorem handler_call_budget
        (fuel : nat) (scope : option RequestScope) (st st' : St E)
        (out : Outcome) :
  run c (loadSession refreshPeriod fuel scope) st = Some (out, st') ->
  (calls (@isLoad) (trace st') <= calls (@isLoad) (trace st) + 2)%nat /\
  (calls (@isSave) (trace st') <= calls (@isSave) (trace st) + 1)%nat /\
  (calls (@isClear) (trace st') <= calls (@isClear) (trace st) + 1)%nat /\
  (calls (@isValidator) (trace st') <= calls (@isValidator) (trace st) + 1)%nat.
Proof.
  intros Hrun. repeat split.
  - exact (budget_run _ _ _ _ _ _ (loadSession_loads _ _ _) Hrun).
  - exact (budget_run _ _ _ _ _ _ (loadSession_saves _ _ _) Hrun).
  - exact (budget_run _ _ _ _ _ _ (loadSession_clears _ _ _) Hrun).
  - exact (budget_run _ _ _ _ _ _ (loadSession_validates _ _ _) Hrun).
Qed.

End WithinBudget.

(** ** The wait *)

Section Polling.
Variable refreshPeriod : Duration.




End Polling.

Section Waiting.
Context {E : Type}.
Variable c : Collaborators E.
Variable refreshPeriod : Duration.


(** The wait loop does not end while the lock is found held. *)
Lemma peekLoop_stuck :
  (forall e, fst (fst (Peek (lock c) e)) = true) ->
  forall fuel w st, run c (peekLoop fuel w) st = None.
Proof.
  intros Hheld. induction fuel as [| fuel IH]; intros w st; [reflexivity |].
  cbn [peekLoop]. run_simpl.
  specialize (Hheld (env st)).
  destruct (Peek (lock c) (env st)) as [[isLocked err] e1].
  cbn [fst] in Hheld. subst isLocked. run_simpl. apply IH.
Qed.

(** X10.  The wait has no bound of its own: when a loaded session is
    due for a refresh and every peek finds the lock held, the handler
    does not return, however much fuel it is given. *)
Theorem stuck_lock_never_returns
        (fuel : nat) (scope : RequestScope) (session : SessionState)
        (st : St E) (e1 : E) :
  Session scope = None ->
  Load (store c) (env st) = ((Some session, None), e1) ->
  0 < refreshPeriod ->
  refreshPeriod <= Age session (Now c e1) ->
  (forall e, fst (fst (Peek (lock c) e)) = true) ->
  run c (loadSession refreshPeriod fuel (Some scope)) st = None.
Proof.
  intros Hscope Hload Hpos Hage Hheld.
  unfold loadSession. rewrite Hscope.
  unfold getValidatedSession. destruct st as [e tr]. cbn [env] in Hload.
  run_all.
  unfold refreshSessionIfNeeded, waitForPossibleSessionLock. run_all.
  assert ((refreshPeriod <=? 0) || (Age session (Now c e1) <? refreshPeriod)
          = false) as ->.
  { apply orb_false_iff. split; [apply Z.leb_gt | apply Z.ltb_ge]; lia. }
  rewrite !run_bind, (peekLoop_stuck Hheld). reflexivity.
Qed.

End Waiting.

(** ** The paths of a request *)

Ltac totality :=
  repeat match goal with
    | |- forall _, total _ _ => intro; cbv beta
    | |- total _ (match ?x with _ => _ end) => destruct x
    | |- total _ (Ret _) => apply total_ret
    | |- total _ (call _) => apply total_call
    | |- total _ (bind _ _) => apply total_bind
    end.

Section Paths.
Context {E : Type}.
Variable c : Collaborators E.
Variable refreshPeriod : Duration.

Lemma getValidatedSession_never_clear fuel :
  never (@isClear) (getValidatedSession refreshPeriod fuel).
Proof.
  unfold getValidatedSession, refreshSessionIfNeeded, validateSession,
    waitForPossibleSessionLock, updateSessionFromStore, refreshSession,
    refreshLocked, releaseDeferred, logger_Printf, logger_Errorf,
    logger_PrintAuthf.
  never_tac; try (apply peekLoop_never; reflexivity).
Qed.

(** A session comes out of [getValidatedSession] only through a
    validation that found nothing wrong. *)
Lemma getValidatedSession_some fuel st session err st1 :
  run c (getValidatedSession refreshPeriod fuel) st =
  Some ((Some session, err), st1) ->
  err = None /\
  exists stv, run c (validateSession session) stv = Some (None, st1).
Proof.
  intros Hrun. unfold getValidatedSession in Hrun.
  rewrite run_bind, run_call in Hrun.
  destruct (perform c StoreLoad st) as [[ls le] st0].
  destruct le as [e |]; [destruct ls; discriminate |].
  destruct ls as [s0 |]; [| discriminate].
  rewrite run_bind in Hrun.
  destruct (run c (refreshSessionIfNeeded refreshPeriod fuel s0) st0)
    as [[[s1 [e |]] st2] |]; try discriminate.
  rewrite run_bind in Hrun.
  destruct (run c (validateSession s1) st2) as [[[e |] st3] |] eqn:Hval;
    try discriminate.
  inversion Hrun; subst. split; [reflexivity |]. now exists st2.
Qed.

(** X1.  The handler attaches a session only right after a validation
    of that very session that found it unexpired and accepted by the
    validator; the store is not cleared in such a run. *)
Theorem attached_session_was_validated
        (fuel : nat) (scope scope' : RequestScope) (session : SessionState)
        (st st' : St E) :
  Session scope = None ->
  run c (loadSession refreshPeriod fuel (Some scope)) st =
  Some (Served scope', st') ->
  Session scope' = Some session ->
  exists stv e',
    IsExpired session (Now c (env stv)) = false /\
    sessionValidator c session (env stv) = (true, e') /\
    trace st' =
    trace stv ++
    [Call (Validator session) true;
     Call (NextServeHTTP {| Session := Some session |}) tt] /\
    calls (@isClear) (trace st') = calls (@isClear) (trace st).
Proof.
  intros Hscope Hrun Hattached.
  rewrite (loadSession_run c refreshPeriod fuel scope st Hscope) in Hrun.
  destruct (run c (getValidatedSession refreshPeriod fuel) st)
    as [[[loaded err] st1] |] eqn:Hgv; [| discriminate].
  destruct (run c (clearOnError err) st1) as [[u st2] |] eqn:Hclear;
    [| discriminate].
  inversion Hrun; subst scope' st'. cbn [Session] in Hattached. subst loaded.
  destruct (getValidatedSession_some _ _ _ _ _ Hgv) as (-> & stv & Hval).
  cbn in Hclear. inversion Hclear; subst st2.
  rewrite validateSession_run in Hval.
  destruct (IsExpired session (Now c (env stv))) eqn:Hexpired;
    [discriminate |].
  destruct (sessionValidator c session (env stv)) as [[] e'] eqn:Hvalid;
    [| discriminate].
  inversion Hval; subst st1.
  exists stv, e'.
  split; [exact Hexpired |]. split; [exact Hvalid |]. split.
  - cbn [trace]. rewrite <- app_assoc. reflexivity.
  - cbn [trace]. rewrite calls_app.
    rewrite <- (never_run c _ _ _ _ _
                          (getValidatedSession_never_clear fuel) Hgv).
    cbn [trace]. cbn. lia.
Qed.

(** The refresh step of a session that is not due. *)
Lemma refreshSessionIfNeeded_skip fuel session st :
  refreshPeriod <= 0 \/ Age session (Now c (env st)) < refreshPeriod ->
  run c (refreshSessionIfNeeded refreshPeriod fuel session) st =
  Some ((session, None), st).
Proof.
  intros Hskip. unfold refreshSessionIfNeeded. destruct st as [e tr].
  cbn [env] in Hskip. run_all.
  assert ((refreshPeriod <=? 0) || (Age session (Now c e) <? refreshPeriod)
          = true) as ->.
  { apply orb_true_iff.
    destruct Hskip; [left; now apply Z.leb_le | right; now apply Z.ltb_lt]. }
  reflexivity.
Qed.

(** X2.  When the refresh is disabled or the loaded session is younger
    than the refresh period, the request goes from the load straight
    to the validation of the loaded session, whatever the fuel: the
    lock is not looked at, nothing is refreshed or saved.  The
    validator is asked once if the session has not expired, and not at
    all if it has. *)
Theorem young_session_is_only_validated
        (fuel : nat) (session : SessionState) (st : St E) (e1 : E) :
  Load (store c) (env st) = ((Some session, None), e1) ->
  refreshPeriod <= 0 \/ Age session (Now c e1) < refreshPeriod ->
  let st1 := mkSt e1 (trace st ++ [Call StoreLoad (Some session, None)]) in
  let ok := fst (sessionValidator c session e1) in
  run c (getValidatedSession refreshPeriod fuel) st = validated c session st1 /\
  exists st',
    run c (getValidatedSession refreshPeriod fuel) st =
    Some (if IsExpired session (Now c e1) then
            (None, Some (errors_New "session is expired"))
          else if ok then (Some session, None)
          else (None, Some (errors_New "session is invalid")),
          st') /\
    trace st' =
    trace st ++
    Call StoreLoad (Some session, None) ::
    (if IsExpired session (Now c e1) then []
     else [Call (Validator session) ok]).
Proof.
  intros Hload Hskip st1 ok.
  assert (Hrun : run c (getValidatedSession refreshPeriod fuel) st =
                 validated c session st1).
  { rewrite (getValidatedSession_loaded c refreshPeriod fuel session st e1
                                        Hload).
    rewrite refreshSessionIfNeeded_skip; trivial. }
  split; [exact Hrun |]. rewrite Hrun. unfold validated.
  rewrite validateSession_run. subst st1 ok. cbn [env trace].
  destruct (IsExpired session (Now c e1)).
  - eexists. split; [reflexivity |]. reflexivity.
  - destruct (sessionValidator c session e1) as [[] e']; cbn [fst];
      (eexists; split; [reflexivity |]); cbn [trace];
      rewrite <- app_assoc; reflexivity.
Qed.

(** X4.  A refresh resets the timer: the session that a successful
    refresh stamped and saved is left alone by the refresh step until a
    full period has passed since the stamp. *)
Theorem refreshed_session_is_not_due
        (session refreshedSession : SessionState) (releaseErr : option error)
        (st : St E) (e1 e2 e3 e4 : E) :
  0 < refreshPeriod ->
  Obtain (lock c) SessionLockExpireTime (env st) = (None, e1) ->
  sessionRefresher c session e1 = ((refreshedSession, true, None), e2) ->
  let stamped := CreatedAtNow refreshedSession (Now c e2) in
  Save (store c) stamped e2 = (None, e3) ->
  Release (lock c) e3 = (releaseErr, e4) ->
  (exists st',
      run c (refreshSession session) st = Some ((stamped, None), st') /\
      env st' = e4) /\
  forall fuel st2,
    Now c (env st2) - Now c e2 < refreshPeriod ->
    run c (refreshSessionIfNeeded refreshPeriod fuel stamped) st2 =
    Some ((stamped, None), st2).
Proof.
  intros Hpos Hobt Href stamped Hsave Hrel. split.
  - destruct st as [e tr]. cbn [env] in Hobt.
    unfold refreshSession, refreshLocked, releaseDeferred. run_all.
    fold stamped. rewrite Hsave. run_all.
    destruct releaseErr; run_all; eexists; split; reflexivity.
  - intros fuel st2 Hnow. apply refreshSessionIfNeeded_skip.
    right. unfold Age, stamped. cbn [CreatedAt CreatedAtNow]. exact Hnow.
Qed.

(** X5.  When the refresher answers "not refreshed" without an error,
    the session is neither stamped nor saved: [refreshSession] returns
    the session as the refresher left it, after the release of the
    lock. *)
Theorem unrefreshed_session_is_not_saved
        (session leftSession : SessionState) (releaseErr : option error)
        (st : St E) (e1 e2 e3 : E) :
  Obtain (lock c) SessionLockExpireTime (env st) = (None, e1) ->
  sessionRefresher c session e1 = ((leftSession, false, None), e2) ->
  Release (lock c) e2 = (releaseErr, e3) ->
  run c (refreshSession session) st =
  Some ((leftSession, None),
        mkSt e3
             (trace st ++
              [Call (ObtainLock SessionLockExpireTime) None;
               Call (Refresher session) (leftSession, false, None);
               Call ReleaseLock releaseErr] ++
              match releaseErr with
              | Some e =>
                  [Call (Log LogError "unable to release lock: %v" [FErr e]) tt]
              | None => []
              end)).
Proof.
  intros Hobt Href Hrel. destruct st as [e tr]. cbn [env trace] in *.
  unfold refreshSession, refreshLocked, releaseDeferred. run_all.
  destruct releaseErr; run_all; same_trace.
Qed.

(** X11.  An error of the store on the reload after a wait is fatal for
    the session, "no cookie" included: the error is wrapped without its
    identity, so the handler clears the store and attaches no
    session. *)
Theorem reload_error_is_fatal
        (fuel n : nat) (scope : RequestScope) (session : SessionState)
        (reloaded : option SessionState) (err : error)
        (st stw : St E) (e1 e2 e3 e4 : E) (clearErr : option error) :
  Session scope = None ->
  Load (store c) (env st) = ((Some session, None), e1) ->
  0 < refreshPeriod ->
  refreshPeriod <= Age session (Now c e1) ->
  polls c (S n) (mkSt e1 (trace st ++ [Call StoreLoad (Some session, None)])) =
  Some stw ->
  Peek (lock c) (env stw) = ((false, None), e2) ->
  Load (store c) e2 = ((reloaded, Some err), e3) ->
  Clear (store c) e3 = (clearErr, e4) ->
  (S n < fuel)%nat ->
  let fatal :=
    fmt_Errorf "error refreshing access token for session (%s): %v"
               [FSession session;
                FErr (fmt_Errorf "unable to load updated session from store: %v"
                                 [FErr err])] in
  errors_Is fatal ErrNoCookie = false /\
  run c (loadSession refreshPeriod fuel (Some scope)) st =
  Some (Served {| Session := None |},
        mkSt (next c {| Session := None |} e4)
             (trace stw ++
              [Call PeekLock (false, None);
               Call (Log LogInfo "update session from store" []) tt;
               Call StoreLoad (reloaded, Some err);
               Call (Log LogError
                         "Error loading cookied session: %v, removing session"
                         [FErr fatal]) tt;
               Call StoreClear clearErr] ++
              match clearErr with
              | Some e' =>
                  [Call (Log LogError "Error removing session: %v" [FErr e']) tt]
              | None => []
              end ++
              [Call (NextServeHTTP {| Session := None |}) tt])).
Proof.
  intros Hscope Hload Hpos Hage Hpolls Hpeek Hreload Hclear Hfuel fatal.
  split; [reflexivity |].
  rewrite (loadSession_run c refreshPeriod fuel scope st Hscope).
  rewrite (getValidatedSession_loaded c refreshPeriod fuel session st e1 Hload).
  rewrite (refreshSessionIfNeeded_waited c refreshPeriod fuel n session _ stw e2);
    trivial.
  unfold updateSessionFromStore. run_all. fold fatal.
  erewrite clearOnError_clears; [| reflexivity | cbn [env]; eassumption].
  cbn [env trace]. f_equal. f_equal. f_equal.
  destruct clearErr; rewrite <- !app_assoc; reflexivity.
Qed.

(** X12.  A first load that returns "no cookie", wrapped or not, and
    whatever session comes along with it, is the anonymous request:
    nothing is logged or cleared and the next handler runs with no
    session. *)
Theorem no_cookie_is_anonymous
        (fuel : nat) (scope : RequestScope) (loaded : option SessionState)
        (err : error) (st : St E) (e1 : E) :
  Session scope = None ->
  Load (store c) (env st) = ((loaded, Some err), e1) ->
  errors_Is err ErrNoCookie = true ->
  run c (loadSession refreshPeriod fuel (Some scope)) st =
  Some (Served {| Session := None |},
        mkSt (next c {| Session := None |} e1)
             (trace st ++
              [Call StoreLoad (loaded, Some err);
               Call (NextServeHTTP {| Session := None |}) tt])).
Proof.
  intros Hscope Hload His.
  rewrite (loadSession_run c refreshPeriod fuel scope st Hscope).
  unfold getValidatedSession. destruct st as [e tr]. cbn [env trace] in *.
  run_all. destruct loaded; run_all; cbn [clearOnError]; rewrite His;
    cbn [negb run]; same_trace.
Qed.

End Paths.

(** ** The constructor with the refresh disabled *)

Section Disabled.
Variable refreshPeriod : Duration.
Hypothesis Hdisabled : refreshPeriod <= 0.

Lemma disabled_never_refreshing fuel scope :
  never (@refreshing) (loadSession refreshPeriod fuel scope).
Proof.
  pose proof (proj2 (Z.leb_le _ _) Hdisabled) as Hleb.
  unfold_handler. rewrite Hleb. cbn [orb]. never_tac.
Qed.

Lemma disabled_total {E} (c : Collaborators E) fuel scope :
  total c (loadSession refreshPeriod fuel scope).
Proof.
  pose proof (proj2 (Z.leb_le _ _) Hdisabled) as Hleb.
  unfold_handler. rewrite Hleb. cbn [orb]. totality.
Qed.

End Disabled.

(** X3.  A loader built with a refresh period of zero or less never
    attempts a refresh: whatever the request, the store, the lock and
    the fuel, its handler returns without a call to the lock, to the
    refresher or to Save, and without sleeping. *)
Theorem disabled_refresh_is_never_attempted
        {E : Type} (opts : StoredSessionLoaderOptions E) (amb : Ambient E)
        (nextHandler : RequestScope -> E -> E)
        (fuel : nat) (scope : option RequestScope) (st : St E) :
  RefreshPeriod opts <= 0 ->
  exists out st',
    NewStoredSessionLoader opts amb nextHandler fuel scope st = Some (out, st') /\
    calls (@refreshing) (trace st') = calls (@refreshing) (trace st).
Proof.
  intros Hdisabled. unfold NewStoredSessionLoader. cbv zeta.
  match goal with
  | |- exists out st', run ?c ?p st = _ /\ _ =>
      destruct (disabled_total _ Hdisabled c fuel scope st) as (out & st' & Hrun)
  end.
  exists out, st'. split; [exact Hrun |].
  exact (never_run _ _ _ _ _ _ (disabled_never_refreshing _ Hdisabled fuel scope)
                   Hrun).
Qed.

(** ** The further properties on scripted requests *)

Module SceneFacts.

(** The runs of the two scripted requests. *)
Lemma calm_run :
  run (Mock.collaborators Mock.refreshRotates Mock.accept)
      (loadSession Mock.Hour 1 (Some Mock.noScope)) (Mock.start Mock.calm) =
  Some (Served {| Session := Some (CreatedAtNow Mock.alice' (2 * Mock.Hour)) |},
        Scenes.calmEnd).
Proof. vm_compute. reflexivity. Qed.

Lemma contended_run :
  run (Mock.collaborators Mock.refreshRotates Mock.accept)
      (loadSession Mock.Hour 3 (Some Mock.noScope)) (Mock.start Mock.contended) =
  Some (Served {| Session := Some Mock.alice' |}, Scenes.contendedEnd).
Proof. vm_compute. reflexivity. Qed.

(** C6 as stated fails: the session is due for a refresh, it has not
    expired and the validator accepts it, but every peek finds the lock
    held.  The handler does not return, whatever its fuel: it stays in
    [getValidatedSession], which never calls the next handler. *)
Lemma stuck_lock_starves_next :
  IsExpired Mock.alice (Mock.clock Mock.calm) = false /\
  Mock.accept Mock.alice = true /\
  (forall fuel,
      run Stuck.collaborators (getValidatedSession Mock.Hour fuel)
          (Mock.start Mock.calm) = None /\
      run Stuck.collaborators (loadSession Mock.Hour fuel (Some Mock.noScope))
          (Mock.start Mock.calm) = None).
Proof.
  split; [reflexivity |]. split; [reflexivity |]. intros fuel.
  assert (Hgv : run Stuck.collaborators (getValidatedSession Mock.Hour fuel)
                    (Mock.start Mock.calm) = None).
  { rewrite (getValidatedSession_loaded
               Stuck.collaborators Mock.Hour fuel Mock.alice
               (Mock.start Mock.calm)
               (Mock.mkEnv (2 * Mock.Hour) [] [] None None None None) eq_refl).
    unfold refreshSessionIfNeeded, waitForPossibleSessionLock.
    rewrite !run_bind, run_call. cbn [perform handle Mock.start env trace].
    cbn [Now Stuck.collaborators Mock.clock record app run].
    rewrite (due_test Mock.Hour (Age Mock.alice (2 * Mock.Hour)))
      by (reflexivity || discriminate).
    rewrite !run_bind, (peekLoop_stuck Stuck.collaborators (fun _ => eq_refl)).
    reflexivity. }
  split; [exact Hgv |].
  rewrite (loadSession_run Stuck.collaborators Mock.Hour fuel Mock.noScope
                           (Mock.start Mock.calm) eq_refl), Hgv.
  reflexivity.
Qed.

Lemma attached_session_was_validated_witness :
  exists stv e',
    IsExpired (CreatedAtNow Mock.alice' (2 * Mock.Hour))
              (Mock.clock (env stv)) = false /\
    trace Scenes.calmEnd =
    trace stv ++
    [Call (Validator (CreatedAtNow Mock.alice' (2 * Mock.Hour))) true;
     Call (NextServeHTTP
             {| Session := Some (CreatedAtNow Mock.alice' (2 * Mock.Hour)) |})
          tt] /\
    e' = env stv.
Proof.
  destruct (attached_session_was_validated
              (Mock.collaborators Mock.refreshRotates Mock.accept) Mock.Hour 1
              Mock.noScope _ (CreatedAtNow Mock.alice' (2 * Mock.Hour))
              (Mock.start Mock.calm) Scenes.calmEnd
              eq_refl calm_run eq_refl)
    as (stv & e' & Hexpired & Hvalid & Htrace & _).
  exists stv, e'. split; [exact Hexpired | split; [exact Htrace |]].
  cbn in Hvalid. now inversion Hvalid.
Defined.

Lemma young_session_is_only_validated_witness :
  finalTrace (run (Mock.collaborators Mock.refreshRotates Mock.accept)
                  (getValidatedSession Mock.Hour 0) (Mock.start Scenes.early)) =
  [Call StoreLoad (Some Mock.alice, None); Call (Validator Mock.alice) true] /\
  finalTrace (run (Mock.collaborators Mock.refreshRotates Mock.accept)
                  (getValidatedSession Mock.Hour 0)
                  (Mock.start Scenes.earlyLapsed)) =
  [Call StoreLoad (Some Scenes.lapsed, None)].
Proof.
  split.
  - destruct (young_session_is_only_validated
                (Mock.collaborators Mock.refreshRotates Mock.accept) Mock.Hour 0
                Mock.alice (Mock.start Scenes.early)
                (Mock.mkEnv (Mock.Hour / 2) [] [] None None None None) eq_refl
                (or_intror eq_refl))
      as (_ & st' & Hrun & Htrace).
    rewrite Hrun. exact Htrace.
  - destruct (young_session_is_only_validated
                (Mock.collaborators Mock.refreshRotates Mock.accept) Mock.Hour 0
                Scenes.lapsed (Mock.start Scenes.earlyLapsed)
                (Mock.mkEnv (Mock.Hour / 2) [] [] None None None None) eq_refl
                (or_intror eq_refl))
      as (_ & st' & Hrun & Htrace).
    rewrite Hrun. exact Htrace.
Defined.

Lemma disabled_refresh_is_never_attempted_witness :
  exists out st',
    NewStoredSessionLoader Scenes.disabled Scenes.ambient (fun _ e => e) 0
                           (Some Mock.noScope) (Mock.start Mock.contended) =
    Some (out, st') /\
    calls (@refreshing) (trace st') = 0%nat.
Proof.
  exact (disabled_refresh_is_never_attempted
           Scenes.disabled Scenes.ambient (fun _ e => e) 0 (Some Mock.noScope)
           (Mock.start Mock.contended) ltac:(discriminate)).
Defined.

Lemma refreshed_session_is_not_due_witness :
  run (Mock.collaborators Mock.refreshRotates Mock.accept)
      (refreshSessionIfNeeded Mock.Hour 3
                              (CreatedAtNow Mock.alice' (2 * Mock.Hour)))
      (Mock.start Mock.calm) =
  Some ((CreatedAtNow Mock.alice' (2 * Mock.Hour), None), Mock.start Mock.calm).
Proof.
  destruct (refreshed_session_is_not_due
              (Mock.collaborators Mock.refreshRotates Mock.accept) Mock.Hour
              Mock.alice Mock.alice' None
              (Mock.start Mock.calm) Mock.calm Mock.calm Mock.calm Mock.calm
              eq_refl eq_refl eq_refl eq_refl eq_refl)
    as (_ & Hskip).
  apply Hskip. reflexivity.
Defined.

Lemma unrefreshed_session_is_not_saved_witness :
  run (Mock.collaborators Scenes.refreshDeclines Mock.accept)
      (refreshSession Mock.alice) (Mock.start Mock.calm) =
  Some ((Mock.alice, None),
        mkSt Mock.calm
             ([] ++
              [Call (ObtainLock SessionLockExpireTime) None;
               Call (Refresher Mock.alice) (Mock.alice, false, None);
               Call ReleaseLock None] ++ [])).
Proof.
  exact (unrefreshed_session_is_not_saved
           (Mock.collaborators Scenes.refreshDeclines Mock.accept)
           Mock.alice Mock.alice None
           (Mock.start Mock.calm) Mock.calm Mock.calm Mock.calm
           eq_refl eq_refl eq_refl).
Defined.


Lemma handler_balances_the_lock_witness :
  exists evs,
    trace Scenes.calmEnd = [] ++ evs /\
    (calls (@isObtain) evs <= 1)%nat /\
    calls (@isRelease) evs = count granted evs /\
    (calls (@isRefresher) evs <= count granted evs)%nat /\
    (calls (@isSave) evs = 0%nat \/ calls (@isRefresher) evs = 1%nat).
Proof.
  exact (handler_balances_the_lock
           (Mock.collaborators Mock.refreshRotates Mock.accept) Mock.Hour 1
           (Some Mock.noScope) (Mock.start Mock.calm) Scenes.calmEnd _ calm_run).
Defined.

Lemma handler_call_budget_witness :
  (calls (@isLoad) (trace Scenes.contendedEnd) <= 0 + 2)%nat /\
  (calls (@isSave) (trace Scenes.contendedEnd) <= 0 + 1)%nat /\
  (calls (@isClear) (trace Scenes.contendedEnd) <= 0 + 1)%nat /\
  (calls (@isValidator) (trace Scenes.contendedEnd) <= 0 + 1)%nat.
Proof.
  exact (handler_call_budget
           (Mock.collaborators Mock.refreshRotates Mock.accept) Mock.Hour 3
           (Some Mock.noScope) (Mock.start Mock.contended) Scenes.contendedEnd _
           contended_run).
Defined.


Lemma stuck_lock_never_returns_witness :
  run Stuck.collaborators (loadSession Mock.Hour 1000 (Some Mock.noScope))
      (Mock.start Mock.calm) = None.
Proof.
  exact (stuck_lock_never_returns
           Stuck.collaborators Mock.Hour 1000 Mock.noScope Mock.alice
           (Mock.start Mock.calm)
           (Mock.mkEnv (2 * Mock.Hour) [] [] None None None None)
           eq_refl eq_refl eq_refl ltac:(discriminate)
           (fun _ => eq_refl)).
Defined.

Lemma reload_error_is_fatal_witness :
  result (run (Mock.collaborators Mock.refreshRotates Mock.accept)
              (loadSession Mock.Hour 2 (Some Mock.noScope))
              (Mock.start Scenes.reloadFails)) =
  Some (Served {| Session := None |}) /\
  calls (@isClear)
        (finalTrace (run (Mock.collaborators Mock.refreshRotates Mock.accept)
                         (loadSession Mock.Hour 2 (Some Mock.noScope))
                         (Mock.start Scenes.reloadFails))) = 1%nat.
Proof.
  destruct (reload_error_is_fatal
              (Mock.collaborators Mock.refreshRotates Mock.accept) Mock.Hour
              2 0 Mock.noScope Mock.alice
              None (Sentinel ErrNoCookie) (Mock.start Scenes.reloadFails)
              _ _ _ _ _ None
              eq_refl eq_refl eq_refl ltac:(discriminate)
              eq_refl eq_refl eq_refl eq_refl ltac:(lia))
    as (_ & Hrun).
  rewrite Hrun. split; reflexivity.
Defined.

Lemma no_cookie_is_anonymous_witness :
  finalTrace (run (Mock.collaborators Mock.refreshRotates Mock.accept)
                  (loadSession Mock.Hour 1 (Some Mock.noScope))
                  (Mock.start Scenes.noCookie)) =
  [Call StoreLoad
        (Some Mock.alice,
         Some (Wrapping "loading session" (Sentinel ErrNoCookie)));
   Call (NextServeHTTP {| Session := None |}) tt].
Proof.
  rewrite (no_cookie_is_anonymous
             (Mock.collaborators Mock.refreshRotates Mock.accept) Mock.Hour 1
             Mock.noScope (Some Mock.alice)
             (Wrapping "loading session" (Sentinel ErrNoCookie))
             (Mock.start Scenes.noCookie)
             (Mock.mkEnv (2 * Mock.Hour) [] [] None None None None)
             eq_refl eq_refl eq_refl).
  reflexivity.
Defined.

End SceneFacts.

(** ** When the handler returns, and how *)

Section Returning.
Context {E : Type}.
Variable c : Collaborators E.
Variable refreshPeriod : Duration.

(** A wait loop that ends saw the lock free within its fuel. *)
Lemma peekLoop_returns_released fuel : forall w st r,
  run c (peekLoop fuel w) st = Some r ->
  releasedWithin c fuel (env st) = true.
Proof.
  induction fuel as [| fuel IH]; intros w st r Hrun; [discriminate |].
  cbn [peekLoop] in Hrun. revert Hrun. run_simpl. cbn [releasedWithin].
  destruct (Peek (lock c) (env st)) as [[isLocked err] e1].
  cbn [fst]. destruct isLocked; [| reflexivity].
  run_simpl. intros Hrun. apply IH in Hrun. exact Hrun.
Qed.

(** X13.  For a loaded session that is due for a refresh, the handler
    returns exactly when one of the peeks of the wait finds the lock
    free: given enough fuel if the lock is released in the end, and
    with no amount of fuel otherwise. *)
Theorem handler_returns_iff_lock_is_released
        (scope : RequestScope) (session : SessionState) (st : St E) (e1 : E) :
  Session scope = None ->
  Load (store c) (env st) = ((Some session, None), e1) ->
  0 < refreshPeriod ->
  refreshPeriod <= Age session (Now c e1) ->
  (exists fuel out st',
      run c (loadSession refreshPeriod fuel (Some scope)) st = Some (out, st'))
  <->
  (exists n, releasedWithin c n e1 = true).
Proof.
  intros Hscope Hload Hpos Hage. split.
  - intros (fuel & out & st' & Hrun). exists fuel.
    rewrite (loadSession_run c refreshPeriod fuel scope st Hscope) in Hrun.
    rewrite (getValidatedSession_loaded c refreshPeriod fuel session st e1 Hload)
      in Hrun.
    unfold refreshSessionIfNeeded, waitForPossibleSessionLock in Hrun.
    revert Hrun. run_all.
    assert ((refreshPeriod <=? 0) || (Age session (Now c e1) <? refreshPeriod)
            = false) as ->.
    { apply orb_false_iff. split; [apply Z.leb_gt | apply Z.ltb_ge]; lia. }
    rewrite !run_bind.
    destruct (run c (peekLoop fuel false) _) as [r |] eqn:Hloop;
      [| discriminate].
    intros _. apply peekLoop_returns_released in Hloop. exact Hloop.
  - intros [n Hn]. exists n.
    assert (Hgv : terminates c (getValidatedSession refreshPeriod n) st).
    { apply getValidatedSession_terminates with (n := n); [| lia].
      rewrite Hload. exact Hn. }
    destruct Hgv as ([loaded err] & st1 & Hgv).
    destruct (clearOnError_total c err st1) as ([] & st2 & Hclear).
    rewrite (loadSession_run c refreshPeriod n scope st Hscope), Hgv, Hclear.
    eauto.
Qed.

(** X14.  The call to the next handler is the last thing the handler
    does, and it passes on the scope the handler leaves in the
    request; a scope that came with a session is left as it was. *)
Theorem next_runs_last_with_the_scope
        (fuel : nat) (scope : RequestScope) (st st' : St E) (out : Outcome) :
  run c (loadSession refreshPeriod fuel (Some scope)) st = Some (out, st') ->
  exists scope' tr,
    out = Served scope' /\
    trace st' = tr ++ [Call (NextServeHTTP scope') tt] /\
    (Session scope <> None -> scope' = scope /\ tr = trace st).
Proof.
  intros Hrun. destruct (Session scope) as [attached |] eqn:Hscope.
  - unfold loadSession in Hrun. rewrite Hscope in Hrun.
    destruct st as [e tr]. revert Hrun. run_all. intros Hrun.
    inversion Hrun; subst. exists scope, tr. auto.
  - rewrite (loadSession_run c refreshPeriod fuel scope st Hscope) in Hrun.
    destruct (run c (getValidatedSession refreshPeriod fuel) st)
      as [[[loaded err] st1] |]; [| discriminate].
    destruct (run c (clearOnError err) st1) as [[u st2] |]; [| discriminate].
    inversion Hrun; subst.
    exists {| Session := loaded |}, (trace st2).
    split; [reflexivity | split; [reflexivity |]]. congruence.
Qed.

End Returning.

Module ReturnFacts.

Lemma handler_returns_iff_lock_is_released_witness :
  (exists fuel out st',
      run (Mock.collaborators Mock.refreshRotates Mock.accept)
          (loadSession Mock.Hour fuel (Some Mock.noScope))
          (Mock.start Mock.contended) = Some (out, st'))
  <->
  (exists n,
      releasedWithin (Mock.collaborators Mock.refreshRotates Mock.accept) n
                     (Mock.mkEnv (2 * Mock.Hour) [(Some Mock.alice', None)]
                                 [(true, None); (true, None)]
                                 None None None None) = true).
Proof.
  exact (handler_returns_iff_lock_is_released
           (Mock.collaborators Mock.refreshRotates Mock.accept) Mock.Hour
           Mock.noScope Mock.alice (Mock.start Mock.contended) _
           eq_refl eq_refl eq_refl ltac:(discriminate)).
Defined.

Lemma next_runs_last_with_the_scope_witness :
  exists scope' tr,
    Served {| Session := Some Mock.alice' |} = Served scope' /\
    trace Scenes.contendedEnd = tr ++ [Call (NextServeHTTP scope') tt] /\
    (Session Mock.noScope <> None ->
     scope' = Mock.noScope /\ tr = trace (Mock.start Mock.contended)).
Proof.
  exact (next_runs_last_with_the_scope
           (Mock.collaborators Mock.refreshRotates Mock.accept) Mock.Hour 3
           Mock.noScope (Mock.start Mock.contended) Scenes.contendedEnd _
           SceneFacts.contended_run).
Defined.

End ReturnFacts.
